(** * TaskQuest: the pet lifecycle, decay and progression engine

    A shallow embedding of [src/taskquest-pet.js].

    Conventions of the embedding.
    - The script keeps two globals, [gameData] and [tasks], and talks to the
      page through sinks (popups, sounds, particles, re-rendering,
      localStorage).  A [World] holds the two globals and the chronological
      [trace] of the sink calls made so far; every JavaScript function becomes
      a [Proc], a function from worlds to worlds.
    - [Date.now()] is an input: a function that reads the clock takes the
      timestamp [now] (milliseconds, an integer) as an argument, and one run
      of a handler sees one clock value.
    - The three pet stats become fractional under decay (elapsed minutes are
      divided by 60), so they are rationals ([Q]); JavaScript's doubles are
      idealised as exact rationals.  Levels, XP, counters and timestamps are
      integers ([Z]).
    - [gameData.achievements] is a JavaScript object used as a map from
      achievement id to [true]: a [gmap string bool].
    - A calendar day ([Date.prototype.toDateString]) is the local day of the
      environment's time zone.  A [Zone] gives the offset of local time from
      UTC in force at each instant (daylight saving included), and a day is
      represented by its local day number; parsing a stored date string and
      printing it again is the identity.
    - Writes that only restyle the page (CSS classes and the timers that
      remove them) are not recorded in the trace; DOM look-ups are assumed to
      succeed. *)

From Stdlib Require Import ZArith QArith Qminmax Lqa Lia.
From stdpp Require Import gmap strings list fin_maps.

Open Scope Z_scope.

(** ** Data model *)

Module Task.
Record t := mk {
  id : Z;
  text : string;
  priority : string;
  completed : bool;
  xp : Z
}.

(** [task.completed = true] *)
Definition complete (k : t) : t :=
  {| id := id k; text := text k; priority := priority k;
     completed := true; xp := xp k |}.
End Task.

Module Evolution.
Record t := mk {
  stage : Z;
  emoji : string;
  name : string;
  mood : string;
  minLevel : Z
}.
End Evolution.

Module Achievement.
Record t := mk {
  id : string;
  name : string;
  desc : string;
  icon : string;
  requirement : Z;
  type : option string
}.
End Achievement.

Record GameData := mkGameData {
  level : Z;
  xp : Z;
  totalXP : Z;
  streak : Z;
  lastCompletedDate : option Z;
  totalCompleted : Z;
  achievements : gmap string bool;
  soundEnabled : bool;
  petHappiness : Q;
  petEnergy : Q;
  petHunger : Q;
  petStage : Z;
  petLastFed : Z;
  petLastPet : Z;
  petHibernating : bool;
  hibernationStartTime : option Z;
  petLastUpdate : Z
}.

(** The object literal used when localStorage holds no saved game. *)
Definition defaultGameData (now : Z) : GameData :=
  {| level := 1; xp := 0; totalXP := 0; streak := 0;
     lastCompletedDate := None; totalCompleted := 0;
     achievements := ∅; soundEnabled := true;
     petHappiness := 50; petEnergy := 75; petHunger := 30;
     petStage := 0; petLastFed := now; petLastPet := now;
     petHibernating := false; hibernationStartTime := None;
     petLastUpdate := now |}.

(** *** Field assignments [gameData.f = v] *)

Definition set_level (v : Z) (g : GameData) : GameData :=
  mkGameData v (xp g) (totalXP g) (streak g) (lastCompletedDate g)
    (totalCompleted g) (achievements g) (soundEnabled g) (petHappiness g)
    (petEnergy g) (petHunger g) (petStage g) (petLastFed g) (petLastPet g)
    (petHibernating g) (hibernationStartTime g) (petLastUpdate g).

Definition set_xp (v : Z) (g : GameData) : GameData :=
  mkGameData (level g) v (totalXP g) (streak g) (lastCompletedDate g)
    (totalCompleted g) (achievements g) (soundEnabled g) (petHappiness g)
    (petEnergy g) (petHunger g) (petStage g) (petLastFed g) (petLastPet g)
    (petHibernating g) (hibernationStartTime g) (petLastUpdate g).

Definition set_totalXP (v : Z) (g : GameData) : GameData :=
  mkGameData (level g) (xp g) v (streak g) (lastCompletedDate g)
    (totalCompleted g) (achievements g) (soundEnabled g) (petHappiness g)
    (petEnergy g) (petHunger g) (petStage g) (petLastFed g) (petLastPet g)
    (petHibernating g) (hibernationStartTime g) (petLastUpdate g).

Definition set_streak (v : Z) (g : GameData) : GameData :=
  mkGameData (level g) (xp g) (totalXP g) v (lastCompletedDate g)
    (totalCompleted g) (achievements g) (soundEnabled g) (petHappiness g)
    (petEnergy g) (petHunger g) (petStage g) (petLastFed g) (petLastPet g)
    (petHibernating g) (hibernationStartTime g) (petLastUpdate g).

Definition set_lastCompletedDate (v : option Z) (g : GameData) : GameData :=
  mkGameData (level g) (xp g) (totalXP g) (streak g) v
    (totalCompleted g) (achievements g) (soundEnabled g) (petHappiness g)
    (petEnergy g) (petHunger g) (petStage g) (petLastFed g) (petLastPet g)
    (petHibernating g) (hibernationStartTime g) (petLastUpdate g).

Definition set_totalCompleted (v : Z) (g : GameData) : GameData :=
  mkGameData (level g) (xp g) (totalXP g) (streak g) (lastCompletedDate g)
    v (achievements g) (soundEnabled g) (petHappiness g)
    (petEnergy g) (petHunger g) (petStage g) (petLastFed g) (petLastPet g)
    (petHibernating g) (hibernationStartTime g) (petLastUpdate g).

Definition set_achievements (v : gmap string bool) (g : GameData) : GameData :=
  mkGameData (level g) (xp g) (totalXP g) (streak g) (lastCompletedDate g)
    (totalCompleted g) v (soundEnabled g) (petHappiness g)
    (petEnergy g) (petHunger g) (petStage g) (petLastFed g) (petLastPet g)
    (petHibernating g) (hibernationStartTime g) (petLastUpdate g).

Definition set_soundEnabled (v : bool) (g : GameData) : GameData :=
  mkGameData (level g) (xp g) (totalXP g) (streak g) (lastCompletedDate g)
    (totalCompleted g) (achievements g) v (petHappiness g)
    (petEnergy g) (petHunger g) (petStage g) (petLastFed g) (petLastPet g)
    (petHibernating g) (hibernationStartTime g) (petLastUpdate g).

Definition set_petHappiness (v : Q) (g : GameData) : GameData :=
  mkGameData (level g) (xp g) (totalXP g) (streak g) (lastCompletedDate g)
    (totalCompleted g) (achievements g) (soundEnabled g) v
    (petEnergy g) (petHunger g) (petStage g) (petLastFed g) (petLastPet g)
    (petHibernating g) (hibernationStartTime g) (petLastUpdate g).

Definition set_petEnergy (v : Q) (g : GameData) : GameData :=
  mkGameData (level g) (xp g) (totalXP g) (streak g) (lastCompletedDate g)
    (totalCompleted g) (achievements g) (soundEnabled g) (petHappiness g)
    v (petHunger g) (petStage g) (petLastFed g) (petLastPet g)
    (petHibernating g) (hibernationStartTime g) (petLastUpdate g).

Definition set_petHunger (v : Q) (g : GameData) : GameData :=
  mkGameData (level g) (xp g) (totalXP g) (streak g) (lastCompletedDate g)
    (totalCompleted g) (achievements g) (soundEnabled g) (petHappiness g)
    (petEnergy g) v (petStage g) (petLastFed g) (petLastPet g)
    (petHibernating g) (hibernationStartTime g) (petLastUpdate g).

Definition set_petStage (v : Z) (g : GameData) : GameData :=
  mkGameData (level g) (xp g) (totalXP g) (streak g) (lastCompletedDate g)
    (totalCompleted g) (achievements g) (soundEnabled g) (petHappiness g)
    (petEnergy g) (petHunger g) v (petLastFed g) (petLastPet g)
    (petHibernating g) (hibernationStartTime g) (petLastUpdate g).

Definition set_petLastPet (v : Z) (g : GameData) : GameData :=
  mkGameData (level g) (xp g) (totalXP g) (streak g) (lastCompletedDate g)
    (totalCompleted g) (achievements g) (soundEnabled g) (petHappiness g)
    (petEnergy g) (petHunger g) (petStage g) (petLastFed g) v
    (petHibernating g) (hibernationStartTime g) (petLastUpdate g).

Definition set_petHibernating (v : bool) (g : GameData) : GameData :=
  mkGameData (level g) (xp g) (totalXP g) (streak g) (lastCompletedDate g)
    (totalCompleted g) (achievements g) (soundEnabled g) (petHappiness g)
    (petEnergy g) (petHunger g) (petStage g) (petLastFed g) (petLastPet g)
    v (hibernationStartTime g) (petLastUpdate g).

Definition set_hibernationStartTime (v : option Z) (g : GameData) : GameData :=
  mkGameData (level g) (xp g) (totalXP g) (streak g) (lastCompletedDate g)
    (totalCompleted g) (achievements g) (soundEnabled g) (petHappiness g)
    (petEnergy g) (petHunger g) (petStage g) (petLastFed g) (petLastPet g)
    (petHibernating g) v (petLastUpdate g).

Definition set_petLastUpdate (v : Z) (g : GameData) : GameData :=
  mkGameData (level g) (xp g) (totalXP g) (streak g) (lastCompletedDate g)
    (totalCompleted g) (achievements g) (soundEnabled g) (petHappiness g)
    (petEnergy g) (petHunger g) (petStage g) (petLastFed g) (petLastPet g)
    (petHibernating g) (hibernationStartTime g) v.

(** ** Static tables *)

Definition petEvolutions : list Evolution.t :=
  [ Evolution.mk 0 "🥚" "Mysterious Egg" "Waiting to hatch..." 1;
    Evolution.mk 1 "🐣" "Baby Chick" "Chirp chirp!" 2;
    Evolution.mk 2 "🐥" "Young Bird" "Feeling playful!" 5;
    Evolution.mk 3 "🐦" "Teen Bird" "Getting stronger!" 10;
    Evolution.mk 4 "🦅" "Mighty Eagle" "Soaring high!" 15;
    Evolution.mk 5 "🦜" "Phoenix Master" "Maximum power!" 20;
    Evolution.mk 6 "✨🦜✨" "Cosmic Phoenix" "Transcendent!" 25 ].

Definition achievementTable : list Achievement.t :=
  [ Achievement.mk "first_task" "First Steps" "Complete 1 task" "🌟" 1 None;
    Achievement.mk "task_5" "Getting Started" "Complete 5 tasks" "💪" 5 None;
    Achievement.mk "task_10" "On Fire" "Complete 10 tasks" "🔥" 10 None;
    Achievement.mk "task_25" "Dedicated" "Complete 25 tasks" "🎯" 25 None;
    Achievement.mk "task_50" "Unstoppable" "Complete 50 tasks" "⚡" 50 None;
    Achievement.mk "task_100" "Legend" "Complete 100 tasks" "👑" 100 None;
    Achievement.mk "streak_3" "Habit Former" "3 day streak" "📅" 3 (Some "streak");
    Achievement.mk "streak_7" "Week Warrior" "7 day streak" "🗓️" 7 (Some "streak");
    Achievement.mk "level_5" "Rising Star" "Reach level 5" "🌠" 5 (Some "level");
    Achievement.mk "level_10" "Master" "Reach level 10" "🏅" 10 (Some "level");
    Achievement.mk "level_15" "Champion" "Reach level 15" "🏆" 15 (Some "level");
    Achievement.mk "level_20" "Legendary" "Reach level 20" "✨" 20 (Some "level");
    Achievement.mk "pet_lover" "Pet Lover" "Pet your buddy 10 times" "💕" 10 (Some "pet") ].

(** ** Sinks and the world *)

(** The argument of [playSound]. *)
Inductive Sound :=
  | SndXp | SndLevelup | SndAchievement | SndPet | SndEvolution | SndHibernate.

(** The popups shown through [showCelebration]; each constructor stands for
    one call site with its title, text and icon. *)
Inductive Notice :=
  | NPetHibernating                 (* '😴 Pet Hibernating!' *)
  | NPetAwakened                    (* '🌟 Pet Awakened!' *)
  | NPetSleeping                    (* '😴 Pet is Sleeping!' *)
  | NEvolution (e : Evolution.t)    (* '🎊 Evolution! 🎊' *)
  | NMegaLevelUp (lvl : Z)          (* '🎉 MEGA LEVEL UP! 🎉' *)
  | NLevelUp (lvl : Z)              (* '🎉 Level Up!' *)
  | NAchievement (a : Achievement.t). (* '🏆 Achievement Unlocked!' *)

(** Callbacks handed to [setTimeout] that do more than restyle. *)
Inductive Callback :=
  | CbRemoveTask (id : Z)     (* filter the task out, save, render *)
  | CbConfetti                (* createConfetti() *)
  | CbRefreshPet.             (* updatePetDisplay() after the evolve animation *)

Inductive Event :=
  | ShowCelebration (n : Notice)
  | PlaySound (s : Sound)
  | UpdatePetDisplay
  | UpdatePlayerStats
  | RenderTasks
  | RenderAchievements
  | SaveData
  | Hearts (count : Z)
  | Confetti (count : Z)
  | ShowFloatingXP (amount : Z)
  | SetTimeout (cb : Callback) (ms : Z).

Record World := mkWorld {
  gameData : GameData;
  tasks : list Task.t;
  trace : list Event
}.

Definition Proc := World -> World.

Definition skip : Proc := fun w => w.

Definition seq (p q : Proc) : Proc := fun w => q (p w).

Notation "p >>> q" := (seq p q) (at level 61, left associativity).

(** A sink call. *)
Definition emit (e : Event) : Proc :=
  fun w => mkWorld (gameData w) (tasks w) (trace w ++ [e]).

(** An assignment to [gameData]. *)
Definition update (f : GameData -> GameData) : Proc :=
  fun w => mkWorld (f (gameData w)) (tasks w) (trace w).

(** An assignment to [tasks]. *)
Definition updateTasks (f : list Task.t -> list Task.t) : Proc :=
  fun w => mkWorld (gameData w) (f (tasks w)) (trace w).

(** [if (c) { p } else { q }] with [c] read from [gameData]. *)
Definition ifte (c : GameData -> bool) (p q : Proc) : Proc :=
  fun w => if c (gameData w) then p w else q w.

Definition when (c : GameData -> bool) (p : Proc) : Proc := ifte c p skip.

(** *** Comparisons on stats *)

Definition Qleb (x y : Q) : bool := Qle_bool x y.
Definition Qltb (x y : Q) : bool := negb (Qle_bool y x).

(** [Math.min(100, v)] and [Math.max(0, v)] *)
Definition min100 (v : Q) : Q := Qmin 100 v.
Definition max0 (v : Q) : Q := Qmax 0 v.

(** *** The sinks *)

Definition showCelebration (n : Notice) : Proc := emit (ShowCelebration n).
Definition playSound (s : Sound) : Proc := emit (PlaySound s).
Definition updatePetDisplay : Proc := emit UpdatePetDisplay.
Definition updatePlayerStats : Proc := emit UpdatePlayerStats.
Definition renderTasks : Proc := emit RenderTasks.
Definition renderAchievements : Proc := emit RenderAchievements.
Definition saveData : Proc := emit SaveData.
Definition createHearts : Proc := emit (Hearts 5).
Definition createConfetti : Proc := emit (Confetti 50).
Definition showFloatingXP (amount : Z) : Proc := emit (ShowFloatingXP amount).
Definition setTimeout (cb : Callback) (ms : Z) : Proc := emit (SetTimeout cb ms).

(** ** Pet evolution *)

(** The first table entry, [petEvolutions[0]]. *)
Definition firstEvolution : Evolution.t :=
  Evolution.mk 0 "🥚" "Mysterious Egg" "Waiting to hatch..." 1.

(** The loop of [getPetEvolution]: it walks the table from its last entry
    down to its first and returns the first entry whose [minLevel] the level
    reaches; [petEvolutions[0]] when none does. *)
Definition evolutionForLevel (lvl : Z) : Evolution.t :=
  match List.find (fun e => Evolution.minLevel e <=? lvl) (rev petEvolutions) with
  | Some e => e
  | None => hd firstEvolution petEvolutions
  end.

Definition getPetEvolution (g : GameData) : Evolution.t :=
  evolutionForLevel (level g).

Definition evolvePet (newEvolution : Evolution.t) : Proc :=
  setTimeout CbRefreshPet 1000 >>>
  showCelebration (NEvolution newEvolution) >>>
  createConfetti >>>
  setTimeout CbConfetti 300 >>>
  playSound SndEvolution.

Definition checkPetEvolution : Proc :=
  fun w =>
    let currentEvolution := getPetEvolution (gameData w) in
    if petStage (gameData w) <? Evolution.stage currentEvolution then
      (update (set_petStage (Evolution.stage currentEvolution)) >>>
       evolvePet currentEvolution) w
    else w.

(** ** Hibernation *)

Definition enterHibernation (now : Z) : Proc :=
  update (set_petHibernating true) >>>
  update (set_hibernationStartTime (Some now)) >>>
  update (fun g => set_petHappiness (max0 (petHappiness g - 30)) g) >>>
  showCelebration NPetHibernating >>>
  playSound SndHibernate >>>
  updatePetDisplay >>>
  saveData.

Definition wakeFromHibernation : Proc :=
  update (set_petHibernating false) >>>
  update (fun g => set_petHappiness (min100 (petHappiness g + 20)) g) >>>
  showCelebration NPetAwakened >>>
  createHearts >>>
  createConfetti >>>
  playSound SndLevelup >>>
  updatePetDisplay >>>
  saveData.

Definition checkHibernation (now : Z) : Proc :=
  when (fun g => Qleb (petEnergy g) 0 && negb (petHibernating g))
       (enterHibernation now) >>>
  when (fun g => Qleb 20 (petEnergy g) && petHibernating g)
       wakeFromHibernation.

(** ** Pet interactions *)

Definition petPet (now : Z) : Proc :=
  fun w =>
    let timeSinceLastPet := now - petLastPet (gameData w) in
    if timeSinceLastPet <? 10000 then w
    else
      (update (set_petLastPet now) >>>
       ifte petHibernating
         (update (fun g => set_petEnergy (min100 (petEnergy g + 5)) g) >>>
          update (fun g => set_petHappiness (min100 (petHappiness g + 5)) g) >>>
          emit (Hearts 2) >>>
          playSound SndPet)
         (update (fun g => set_petHappiness (min100 (petHappiness g + 10)) g) >>>
          createHearts >>>
          playSound SndPet) >>>
       checkHibernation now >>>
       updatePetDisplay >>>
       saveData) w.

Definition feedPet : Proc :=
  update (fun g => set_petHunger (max0 (petHunger g - 20)) g) >>>
  update (fun g => set_petEnergy (min100 (petEnergy g + 10)) g) >>>
  update (fun g => set_petHappiness (min100 (petHappiness g + 5)) g) >>>
  updatePetDisplay.

Definition boostPetEnergy : Proc :=
  update (fun g => set_petEnergy (min100 (petEnergy g + 15)) g) >>>
  update (fun g => set_petHappiness (min100 (petHappiness g + 10)) g) >>>
  updatePetDisplay.

(** ** Stat decay *)

(** [(now - lastUpdate) / (1000 * 60)] with
    [lastUpdate = gameData.petLastUpdate || now]: a stored [0] is falsy. *)
Definition minutesSinceLastUpdate (now : Z) (g : GameData) : Q :=
  let lastUpdate := if petLastUpdate g =? 0 then now else petLastUpdate g in
  inject_Z (now - lastUpdate) / 60000.

Definition decayStats (decayMultiplier : Q) : Proc :=
  ifte petHibernating
    (update (fun g => set_petHunger (min100 (petHunger g + 20 * decayMultiplier)) g) >>>
     update (fun g => set_petEnergy (max0 (petEnergy g - 5 * decayMultiplier)) g) >>>
     update (fun g => set_petHappiness (max0 (petHappiness g - 15 * decayMultiplier)) g))
    (update (fun g => set_petHunger (min100 (petHunger g + 20 * decayMultiplier)) g) >>>
     update (fun g => set_petEnergy (max0 (petEnergy g - 10 * decayMultiplier)) g) >>>
     update (fun g => set_petHappiness (max0 (petHappiness g - 8 * decayMultiplier)) g) >>>
     when (fun g => Qltb 70 (petHunger g))
       (update (fun g => set_petHappiness (max0 (petHappiness g - 5 * decayMultiplier)) g))).

Definition updatePetNeeds (now : Z) : Proc :=
  fun w =>
    let minutes := minutesSinceLastUpdate now (gameData w) in
    if Qleb 1 minutes then
      (decayStats (minutes / 60) >>>
       update (set_petLastUpdate now) >>>
       checkHibernation now >>>
       updatePetDisplay >>>
       saveData) w
    else w.

(** ** Achievements *)

(** [gameData.achievements[id]] read as a condition. *)
Definition isUnlocked (id : string) (g : GameData) : bool :=
  match achievements g !! id with
  | Some b => b
  | None => false
  end.

(** [achievement.type === s] *)
Definition typeIs (a : Achievement.t) (s : string) : bool :=
  match Achievement.type a with
  | Some t => String.eqb t s
  | None => false
  end.

(** The value computed for [unlocked] in the body of [checkAchievements]. *)
Definition requirementMet (a : Achievement.t) (g : GameData) : bool :=
  if typeIs a "streak" then Achievement.requirement a <=? streak g
  else if typeIs a "level" then Achievement.requirement a <=? level g
  else Achievement.requirement a <=? totalCompleted g.

Definition unlockAchievement (a : Achievement.t) : Proc :=
  update (fun g => set_achievements (<[Achievement.id a := true]> (achievements g)) g) >>>
  showCelebration (NAchievement a) >>>
  createConfetti >>>
  playSound SndAchievement >>>
  renderAchievements >>>
  update (fun g => set_petHappiness (min100 (petHappiness g + 15)) g) >>>
  updatePetDisplay >>>
  saveData.

(** One iteration of the [forEach] in [checkAchievements]. *)
Definition checkAchievement (a : Achievement.t) : Proc :=
  fun w =>
    if isUnlocked (Achievement.id a) (gameData w) then w
    else if requirementMet a (gameData w) then unlockAchievement a w
    else w.

Definition checkAchievementList (l : list Achievement.t) : Proc :=
  fun w => fold_left (fun w a => checkAchievement a w) l w.

Definition checkAchievements : Proc := checkAchievementList achievementTable.

(** ** XP and levels *)

Definition getXPForLevel (lvl : Z) : Z := 100 + (lvl - 1) * 50.

Definition levelUp : Proc :=
  update (fun g => set_xp (xp g - getXPForLevel (level g)) g) >>>
  update (fun g => set_level (level g + 1) g) >>>
  (fun w =>
     let is5LevelMilestone := Z.rem (level (gameData w)) 5 =? 0 in
     if is5LevelMilestone then
       (showCelebration (NMegaLevelUp (level (gameData w))) >>>
        createConfetti >>>
        setTimeout CbConfetti 200 >>>
        setTimeout CbConfetti 400 >>>
        checkPetEvolution) w
     else
       (showCelebration (NLevelUp (level (gameData w))) >>>
        createConfetti) w) >>>
  update (fun g => set_petHappiness (min100 (petHappiness g + 20)) g) >>>
  update (fun g => set_petEnergy (min100 (petEnergy g + 15)) g) >>>
  playSound SndLevelup >>>
  checkAchievements >>>
  updatePetDisplay.

Definition addXP (amount : Z) : Proc :=
  update (fun g => set_xp (xp g + amount) g) >>>
  update (fun g => set_totalXP (totalXP g + amount) g) >>>
  showFloatingXP amount >>>
  (fun w =>
     let xpNeeded := getXPForLevel (level (gameData w)) in
     if xpNeeded <=? xp (gameData w) then levelUp w else w) >>>
  updatePlayerStats >>>
  playSound SndXp.

(** ** Streak *)

(** The time zone of the environment: [utcOffset t] is the offset of local
    time from UTC, in milliseconds, in force at the instant [t].  The second
    field holds of every zone: within one day the local clock is never set
    back by more than a day. *)
Record Zone := mkZone {
  utcOffset : Z -> Z;
  utcOffset_day : forall t, utcOffset (t - 86400000) - utcOffset t <= 86400000
}.

(** A zone without clock changes. *)
Definition fixedZone (offset : Z) : Zone :=
  mkZone (fun _ => offset) ltac:(abstract (intros; lia)).

Definition utc : Zone := fixedZone 0.

(** The offsets of America/New_York around 2024: daylight time (UTC-4) from
    10 March 2024 07:00 UTC to 3 November 2024 06:00 UTC, standard time
    (UTC-5) otherwise. *)
Definition newYorkOffset2024 (t : Z) : Z :=
  if (1710054000000 <=? t) && (t <? 1730613600000)
  then -14400000 else -18000000.

Definition newYork2024 : Zone :=
  mkZone newYorkOffset2024
    ltac:(abstract
            (intros t; unfold newYorkOffset2024;
             destruct ((1710054000000 <=? t - 86400000)
                       && (t - 86400000 <? 1730613600000));
             destruct ((1710054000000 <=? t) && (t <? 1730613600000)); lia)).

(** The local calendar day of a timestamp; stands for [toDateString()]. *)
Definition toDateString (zone : Zone) (t : Z) : Z :=
  (t + utcOffset zone t) / 86400000.

Definition updateStreak (zone : Zone) (now : Z) : Proc :=
  fun w =>
    let today := toDateString zone now in
    let lastDate := lastCompletedDate (gameData w) in
    (match lastDate with
     | Some lastDay =>
         let yesterday := toDateString zone (now - 86400000) in
         if lastDay =? yesterday then
           update (fun g => set_streak (streak g + 1) g)
         else if negb (lastDay =? today) then
           update (set_streak 1)
         else skip
     | None => update (set_streak 1)
     end >>>
     update (set_lastCompletedDate (Some today)) >>>
     checkAchievements) w.

(** ** Tasks *)

(** What a JavaScript call does: it returns, or it throws. *)
Inductive JsError := TypeError.

Inductive Completion :=
  | Returned (w : World)
  | Threw (e : JsError) (w : World).

Definition worldOf (c : Completion) : World :=
  match c with Returned w => w | Threw _ w => w end.

(** [tasks.find(t => t.id === id)] *)
Definition findTask (id : Z) (l : list Task.t) : option Task.t :=
  List.find (fun k => Task.id k =? id) l.

(** [task.completed = true] on the object that [find] returned: the first
    task of the array with that id is the one that changes. *)
Fixpoint markCompleted (id : Z) (l : list Task.t) : list Task.t :=
  match l with
  | [] => []
  | k :: rest =>
      if Task.id k =? id then Task.complete k :: rest
      else k :: markCompleted id rest
  end.

(** [tasks = tasks.filter(t => t.id !== id)] *)
Definition removeTask (id : Z) (l : list Task.t) : list Task.t :=
  List.filter (fun k => negb (Task.id k =? id)) l.

(** The callback that [toggleTask] schedules 500 ms after a completion. *)
Definition removeCompletedTask (id : Z) : Proc :=
  updateTasks (removeTask id) >>> saveData >>> renderTasks.

Definition toggleTask (id : Z) (zone : Zone) (now : Z) (w : World) : Completion :=
  let task := findTask id (tasks w) in
  if petHibernating (gameData w) then
    Returned ((showCelebration NPetSleeping >>> playSound SndHibernate) w)
  else
    match task with
    | None => Threw TypeError w      (* reading [completed] of [undefined] *)
    | Some k =>
        if negb (Task.completed k) then
          Returned
            ((updateTasks (markCompleted id) >>>
              update (fun g => set_totalCompleted (totalCompleted g + 1) g) >>>
              addXP (Task.xp k) >>>
              updateStreak zone now >>>
              checkAchievements >>>
              feedPet >>>
              boostPetEnergy >>>
              checkHibernation now >>>
              setTimeout (CbRemoveTask id) 500 >>>
              saveData) w)
        else Returned (saveData w)
    end.

(** [confirmed] is the answer to the [confirm('Delete this quest?')] dialog. *)
Definition deleteTask (id : Z) (confirmed : bool) : Proc :=
  if confirmed then updateTasks (removeTask id) >>> saveData >>> renderTasks
  else skip.

Definition toggleSound : Proc :=
  update (fun g => set_soundEnabled (negb (soundEnabled g)) g) >>> saveData.

(** ** Creating tasks *)

(** The object literal of [getXPForPriority]. *)
Definition xpValues : gmap string Z :=
  <["low" := 10]> (<["medium" := 25]> (<["high" := 50]> ∅)).

(** The property names every object inherits from [Object.prototype]: the
    lookup [xpValues[priority]] finds a function or an object under them. *)
Definition objectPrototypeKeys : list string :=
  [ "constructor"; "hasOwnProperty"; "isPrototypeOf"; "propertyIsEnumerable";
    "toLocaleString"; "toString"; "valueOf"; "__proto__";
    "__defineGetter__"; "__defineSetter__"; "__lookupGetter__";
    "__lookupSetter__" ].

Definition isInheritedKey (key : string) : bool :=
  existsb (String.eqb key) objectPrototypeKeys.

(** [xpValues[priority] || 25].  [None] stands for the one case in which the
    result is not a number: [priority] names an inherited member, which is
    truthy and returned as it is. *)
Definition getXPForPriority (priority : string) : option Z :=
  if isInheritedKey priority then None
  else
    match xpValues !! priority with
    | Some v => Some (if v =? 0 then 25 else v)
    | None => Some 25
    end.

(** How [addTask] ends: with the alert and nothing written, with the task
    pushed, or with a task whose [xp] is not a number (see
    [getXPForPriority]), which the task model does not represent. *)
Inductive AddTaskOutcome :=
  | AlertShown (w : World)
  | TaskAdded (w : World)
  | NonNumericXP.

(** [trim] is [String.prototype.trim]; [value] and [priority] are the
    contents of the text input and of the priority select. *)
Definition addTask (trim : string -> string) (value priority : string)
    (now : Z) (w : World) : AddTaskOutcome :=
  let text := trim value in
  if String.eqb text EmptyString then AlertShown w
  else
    match getXPForPriority priority with
    | None => NonNumericXP
    | Some v =>
        let task := Task.mk now text priority false v in
        TaskAdded ((updateTasks (fun l => l ++ [task]) >>>
                    saveData >>>
                    renderTasks) w)
    end.

(** ** What the page shows *)

Module PetMoods.
Definition happy : list string :=
  ["So happy!"; "Loving it!"; "😊"; "Best day ever!"; "Feeling great!"].
Definition neutral : list string :=
  ["Doing okay"; "Chilling"; "😐"; "Alright"; "Not bad"].
Definition sad : list string :=
  ["A bit tired..."; "Need attention..."; "😢"; "Feeling down"; "Missing you"].
Definition hungry : list string :=
  ["So hungry!"; "Feed me!"; "😋"; "Tummy rumbling"; "Need food!"].
Definition energetic : list string :=
  ["Full of energy!"; "Ready to play!"; "⚡"; "Let's go!"; "Pumped up!"].
End PetMoods.

(** The mood line: a fixed text, or a text drawn with [Math.random] from a
    pool. *)
Inductive Mood :=
  | FixedText (s : string)
  | RandomFrom (pool : list string).

Inductive Banner :=
  | BannerHibernating          (* '😴 HIBERNATING' *)
  | BannerStage (n : Z).       (* `Stage ${n}` *)

(** The three [style.background] values written by [updateStatBarColors]. *)
Module StatBars.
Record t := mk {
  energy : string;
  hunger : string;
  happiness : string
}.
End StatBars.

Definition updateStatBarColors (g : GameData) : StatBars.t :=
  StatBars.mk
    (if Qleb (petEnergy g) 0 then "linear-gradient(90deg, #dc3545, #c82333)"
     else if Qltb (petEnergy g) 30 then "linear-gradient(90deg, #ffc107, #ff9800)"
     else "linear-gradient(90deg, #51cf66, #94d82d)")
    (if Qleb 100 (petHunger g) then "linear-gradient(90deg, #dc3545, #c82333)"
     else if Qltb 70 (petHunger g) then "linear-gradient(90deg, #ffc107, #ff9800)"
     else "linear-gradient(90deg, #ffd43b, #ffa94d)")
    (if Qltb (petHappiness g) 20 then "linear-gradient(90deg, #dc3545, #c82333)"
     else if Qltb (petHappiness g) 40 then "linear-gradient(90deg, #ffc107, #ff9800)"
     else "linear-gradient(90deg, #ff6b6b, #ff8787)").

(** Everything [updatePetDisplay] writes to the page. *)
Module PetView.
Record t := mk {
  display : string;
  name : string;
  nameColor : string;
  mood : Mood;
  moodColor : string;
  cssFilter : string;
  opacity : string;
  banner : Banner;
  bannerBackground : string;
  happinessWidth : Q;
  energyWidth : Q;
  hungerWidth : Q;
  bars : StatBars.t
}.
End PetView.

(** The mood decision list of the awake branch: text and colour. *)
Definition awakeMood (evolution : Evolution.t) (g : GameData) : Mood * string :=
  let avgMood := ((petHappiness g + petEnergy g) / 2)%Q in
  if Qltb 80 (petHunger g) then (RandomFrom PetMoods.hungry, "#ffc107")
  else if Qltb (petEnergy g) 30 then
    (FixedText "Getting sleepy... need tasks soon!", "#ff9800")
  else if Qltb 70 avgMood then (RandomFrom PetMoods.happy, "#28a745")
  else if Qltb avgMood 30 then (RandomFrom PetMoods.sad, "#6c757d")
  else if Qltb 80 (petEnergy g) then (RandomFrom PetMoods.energetic, "#17a2b8")
  else (FixedText (Evolution.mood evolution), "#666").

Definition petView (g : GameData) : PetView.t :=
  let evolution := getPetEvolution g in
  if petHibernating g then
    PetView.mk "😴"
      (Evolution.name evolution ++ " (Sleeping)")%string
      "#6c757d"
      (FixedText "💤 ZZZ... Too tired to help. Pet me to recover!")
      "#dc3545"
      "grayscale(70%)" "0.7"
      BannerHibernating
      "linear-gradient(135deg, #6c757d 0%, #495057 100%)"
      (petHappiness g) (petEnergy g) (petHunger g)
      (updateStatBarColors g)
  else
    PetView.mk (Evolution.emoji evolution)
      (Evolution.name evolution)
      "#667eea"
      (fst (awakeMood evolution g))
      (snd (awakeMood evolution g))
      "none" "1"
      (BannerStage (Evolution.stage evolution + 1))
      "linear-gradient(135deg, #f093fb 0%, #f5576c 100%)"
      (petHappiness g) (petEnergy g) (petHunger g)
      (updateStatBarColors g).

(** ** Start-up *)

(** The calls at the end of the script, run once when the page loads. *)
Definition initialize (now : Z) : Proc :=
  renderTasks >>>
  updatePlayerStats >>>
  renderAchievements >>>
  updatePetDisplay >>>
  updatePetNeeds now >>>
  checkPetEvolution.

(** * Vocabulary of the properties *)

(** ** Predicates *)

(** The invariant as the data model words it: the start time is present
    exactly when the pet hibernates. *)
Definition startTimeIffHibernating (g : GameData) : Prop :=
  petHibernating g = true <-> hibernationStartTime g <> None.

Definition inRange (v : Q) : Prop := (0 <= v /\ v <= 100)%Q.

Definition statsInRange (g : GameData) : Prop :=
  inRange (petHappiness g) /\ inRange (petEnergy g) /\ inRange (petHunger g).

(** A procedure keeps the three stats inside [0,100]. *)
Definition KeepsStats (p : Proc) : Prop :=
  forall w, statsInRange (gameData w) -> statsInRange (gameData (p w)).

(** The operations that write to the game data, as the handlers and their
    helpers expose them. *)
Inductive Mutation :=
  | DecayTick (now : Z)
  | Petting (now : Z)
  | Feeding
  | EnergyBoost
  | LevelUp
  | XpAward (amount : Z)
  | AchievementUnlock (a : Achievement.t)
  | AchievementCheck
  | StreakUpdate (zone : Zone) (now : Z)
  | EvolutionCheck
  | HibernationEntry (now : Z)
  | HibernationExit
  | HibernationCheck (now : Z)
  | TaskCompletion (id : Z) (zone : Zone) (now : Z)
  | TaskDeletion (id : Z) (confirmed : bool).

Definition runMutation (m : Mutation) : Proc :=
  match m with
  | DecayTick now => updatePetNeeds now
  | Petting now => petPet now
  | Feeding => feedPet
  | EnergyBoost => boostPetEnergy
  | LevelUp => levelUp
  | XpAward amount => addXP amount
  | AchievementUnlock a => unlockAchievement a
  | AchievementCheck => checkAchievements
  | StreakUpdate zone now => updateStreak zone now
  | EvolutionCheck => checkPetEvolution
  | HibernationEntry now => enterHibernation now
  | HibernationExit => wakeFromHibernation
  | HibernationCheck now => checkHibernation now
  | TaskCompletion id zone now => fun w => worldOf (toggleTask id zone now w)
  | TaskDeletion id confirmed => deleteTask id confirmed
  end.

(** The last row of the achievement table. *)
Definition petLover : Achievement.t :=
  Achievement.mk "pet_lover" "Pet Lover" "Pet your buddy 10 times" "💕" 10 (Some "pet").

(** ** Further predicates *)

(** Progress never goes backwards from [g] to [g']: every unlocked
    achievement stays unlocked, and the pet stage, the level and the
    completed-task counter do not drop. *)
Definition progressLe (g g' : GameData) : Prop :=
  (forall k, isUnlocked k g = true -> isUnlocked k g' = true) /\
  petStage g <= petStage g' /\
  level g <= level g' /\
  totalCompleted g <= totalCompleted g'.

Definition KeepsProgress (p : Proc) : Prop :=
  forall w, progressLe (gameData w) (gameData (p w)).

(** A procedure leaves the task list alone. *)
Definition KeepsTasks (p : Proc) : Prop :=
  forall w, tasks (p w) = tasks w.

(** The hibernation flag agrees with the thresholds: nothing is left for the
    hibernation check to do. *)
Definition settled (g : GameData) : Prop :=
  (petHibernating g = false -> (0 < petEnergy g)%Q) /\
  (petHibernating g = true -> (petEnergy g < 20)%Q).

(** The achievement-table row unlocks nothing more in [g]. *)
Definition rowDone (g : GameData) (a : Achievement.t) : Prop :=
  isUnlocked (Achievement.id a) g = true \/ requirementMet a g = false.

(** The branch of [toggleTask] taken for an open task with the pet awake. *)
Definition completionBody (id : Z) (zone : Zone) (now : Z) (k : Task.t) : Proc :=
  updateTasks (markCompleted id) >>>
  update (fun g => set_totalCompleted (totalCompleted g + 1) g) >>>
  addXP (Task.xp k) >>>
  updateStreak zone now >>>
  checkAchievements >>>
  feedPet >>>
  boostPetEnergy >>>
  checkHibernation now >>>
  setTimeout (CbRemoveTask id) 500 >>>
  saveData.


(** ** Sample worlds *)

(** A new game, started at time 0, holding [xp0] XP. *)
Definition freshGame (xp0 : Z) : World :=
  mkWorld (set_xp xp0 (defaultGameData 0)) [] [].

(** A new game started at time 1000. *)
Definition staleGame : World := mkWorld (defaultGameData 1000) [] [].

(** A pet that has just fallen asleep at time [t]. *)
Definition asleepSince (t : Z) : World :=
  enterHibernation t (mkWorld (set_petEnergy 0 (defaultGameData 0)) [] []).

(** A sleeping pet petted up to energy 10, inside the deadband. *)
Definition dozingGame : World :=
  mkWorld (set_petEnergy 10 (set_petHibernating true (defaultGameData 1000))) [] [].

Definition reportTask : Task.t := Task.mk 7 "Write report" "medium" false 25.

(** A sleeping pet at energy 15, ready to be petted awake. *)
Definition asleepAt15 : World :=
  mkWorld (set_petEnergy 15 (set_petHibernating true (defaultGameData 1000))) [] [].

(** A sleeping pet and one open task. *)
Definition blockedGame : World :=
  mkWorld (gameData dozingGame) [reportTask] [].

(** An awake pet and one open task. *)
Definition openGame : World := mkWorld (defaultGameData 1000) [reportTask] [].

(** An awake pet down to energy 5, with one open task. *)
Definition tiredGame : World :=
  mkWorld (set_petEnergy 5 (defaultGameData 1000)) [reportTask] [].

(** A new game with ten tasks on the counter. *)
Definition tenDone : World :=
  mkWorld (set_totalCompleted 10 (defaultGameData 1000)) [] [].

(** Noon (UTC) on day 20000. *)
Definition noonD : Z := 20000 * 86400000 + 43200000.

(** Saturday 2 November 2024, 12:00 in New York (daylight time). *)
Definition nov2Noon : Z := 1730563200000.

(** Sunday 3 November 2024, 23:30 in New York (standard time), on the
    25-hour day on which the clocks went back. *)
Definition nov3Late : Z := 1730694600000.

(** Monday 11 March 2024, 00:30 in New York, the night after the 23-hour day
    on which the clocks went forward. *)
Definition mar11Early : Z := 1710131400000.

(** [n] pettings, ten seconds apart, the first at [now]. *)
Fixpoint petTimes (n : nat) (now : Z) (w : World) : World :=
  match n with
  | O => w
  | S n' => petTimes n' (now + 10000) (petPet now w)
  end.

(** ** Tactics *)

Ltac unfold_sinks :=
  unfold showCelebration, playSound, updatePetDisplay, updatePlayerStats,
    renderTasks, renderAchievements, saveData, createHearts, createConfetti,
    showFloatingXP, setTimeout.

Ltac unfold_proc :=
  unfold_sinks; unfold when, ifte, seq, skip, emit, update, updateTasks.

(** Reads of fields through assignments and sink calls. *)
Ltac gd_simpl :=
  unfold_sinks;
  cbn [level xp totalXP streak lastCompletedDate totalCompleted achievements
       soundEnabled petHappiness petEnergy petHunger petStage petLastFed
       petLastPet petHibernating hibernationStartTime petLastUpdate
       set_level set_xp set_totalXP set_streak set_lastCompletedDate
       set_totalCompleted set_achievements set_soundEnabled set_petHappiness
       set_petEnergy set_petHunger set_petStage set_petLastPet
       set_petHibernating set_hibernationStartTime set_petLastUpdate
       gameData tasks trace emit update updateTasks skip].

Create HintDb stats.
Create HintDb tasks.
Create HintDb progress.

(** Closes [KeepsStats] goals from the hint database [stats]. *)
Ltac keeps := auto 30 with stats.

(** The same, for a goal about one world [w] already in the context. *)
Ltac keeps_here :=
  match goal with
  | H : statsInRange (gameData ?w) |- statsInRange (gameData (?p ?w)) =>
      apply (fun K : KeepsStats p => K w H); keeps
  end.

(** Closes [KeepsProgress] goals from the hint database [progress]. *)
Ltac progresses := auto 30 with progress.

Ltac progresses_here :=
  match goal with
  | |- progressLe (gameData ?w) (gameData (?p ?w)) =>
      apply (fun K : KeepsProgress p => K w); progresses
  end.

(** Splits a goal about the mood line and closes the branches in which the
    assumed mood is not the one the decision list produced. *)
Ltac mood_cases :=
  repeat split; intros;
  repeat match goal with H : _ \/ _ |- _ => destruct H end;
  try match goal with
      | H : RandomFrom _ = RandomFrom _ |- _ => discriminate H
      | H : FixedText _ = RandomFrom _ |- _ => discriminate H
      end;
  try assumption; try lra.

(** * Properties *)

(** ** Evaluation helpers *)

Lemma Qleb_le x y : Qleb x y = true <-> (x <= y)%Q.
Proof. apply Qle_bool_iff. Qed.

Lemma Qleb_gt x y : Qleb x y = false <-> (y < x)%Q.
Proof.
  unfold Qleb. split; intros H.
  - apply Qnot_le_lt. intros Hle. apply Qle_bool_iff in Hle. congruence.
  - destruct (Qle_bool x y) eqn:E; [|reflexivity].
    apply Qle_bool_iff in E. exfalso. apply (Qlt_not_le _ _ H E).
Qed.

Lemma Qltb_lt x y : Qltb x y = true <-> (x < y)%Q.
Proof.
  unfold Qltb. rewrite negb_true_iff. apply Qleb_gt.
Qed.

Lemma gameData_emit e w : gameData (emit e w) = gameData w.
Proof. reflexivity. Qed.

Lemma tasks_emit e w : tasks (emit e w) = tasks w.
Proof. reflexivity. Qed.

(** ** What the achievement check leaves alone *)

(** The check writes [achievements] and [petHappiness] and nothing else of
    the game data; [tasks] is never touched. *)
Section AchievementFrame.
Context {A : Type} (f : GameData -> A).
Hypothesis f_achievements : forall v g, f (set_achievements v g) = f g.
Hypothesis f_petHappiness : forall v g, f (set_petHappiness v g) = f g.

Lemma unlockAchievement_frame a w :
  f (gameData (unlockAchievement a w)) = f (gameData w).
Proof.
  unfold unlockAchievement. unfold_proc. cbn.
  now rewrite f_petHappiness, f_achievements.
Qed.

Lemma checkAchievement_frame a w :
  f (gameData (checkAchievement a w)) = f (gameData w).
Proof.
  unfold checkAchievement.
  destruct (isUnlocked _ _); [reflexivity|].
  destruct (requirementMet _ _); [apply unlockAchievement_frame|reflexivity].
Qed.

Lemma checkAchievementList_frame l w :
  f (gameData (checkAchievementList l w)) = f (gameData w).
Proof.
  revert w. induction l as [|a l IH]; intros w; [reflexivity|].
  unfold checkAchievementList in *. cbn [fold_left].
  rewrite IH. apply checkAchievement_frame.
Qed.

Lemma checkAchievements_frame w :
  f (gameData (checkAchievements w)) = f (gameData w).
Proof. apply checkAchievementList_frame. Qed.
End AchievementFrame.

Lemma checkAchievementList_tasks l w :
  tasks (checkAchievementList l w) = tasks w.
Proof.
  revert w. induction l as [|a l IH]; intros w; [reflexivity|].
  unfold checkAchievementList in *. cbn [fold_left]. rewrite IH.
  unfold checkAchievement.
  destruct (isUnlocked _ _); [reflexivity|].
  destruct (requirementMet _ _); reflexivity.
Qed.

(** ** Evolution and level-up (C1) *)

(** The evolution check, once it runs, brings a stage that lags behind up to
    the stage of the level. *)
Lemma checkPetEvolution_petStage w :
  petStage (gameData (checkPetEvolution w))
  = Z.max (petStage (gameData w)) (Evolution.stage (getPetEvolution (gameData w))).
Proof.
  unfold checkPetEvolution.
  destruct (Z.ltb_spec (petStage (gameData w))
              (Evolution.stage (getPetEvolution (gameData w)))); cbn; lia.
Qed.

(** Off the multiples of five, [levelUp] never reaches the evolution check:
    the stage stays as it was. *)
Lemma levelUp_petStage_off_milestone w :
  Z.rem (level (gameData w) + 1) 5 <> 0 ->
  petStage (gameData (levelUp w)) = petStage (gameData w).
Proof.
  intros H. unfold levelUp, seq, updatePetDisplay.
  rewrite gameData_emit, (checkAchievements_frame petStage) by reflexivity.
  unfold_proc. cbn.
  destruct (Z.eqb_spec (Z.rem (level (gameData w) + 1) 5) 0); [contradiction|].
  reflexivity.
Qed.

(** On a multiple of five the check runs. *)
Lemma levelUp_petStage_milestone w :
  Z.rem (level (gameData w) + 1) 5 = 0 ->
  petStage (gameData (levelUp w))
  = Z.max (petStage (gameData w))
      (Evolution.stage (evolutionForLevel (level (gameData w) + 1))).
Proof.
  intros H. unfold levelUp, seq, updatePetDisplay.
  rewrite gameData_emit, (checkAchievements_frame petStage) by reflexivity.
  gd_simpl. rewrite H. cbn [Z.eqb].
  rewrite checkPetEvolution_petStage. reflexivity.
Qed.

(** C1: [levelUp] from level 1 to level 2 returns with [petStage] still 0,
    although the evolution-table record with the greatest [minLevel] not
    exceeding level 2 is stage 1 (Baby Chick): the evolution check sits in
    the multiple-of-five branch and is skipped. *)
Theorem levelUp_to_level_2_keeps_stage_0 :
  let w' := levelUp (freshGame 120) in
  level (gameData w') = 2 /\
  petStage (gameData w') = 0 /\
  Evolution.stage (getPetEvolution (gameData w')) = 1.
Proof. vm_compute. repeat split. Qed.

(** What [getPetEvolution] selects: the table record with the greatest
    [minLevel] not exceeding the level. *)
Lemma evolutionForLevel_greatest lvl :
  1 <= lvl ->
  In (evolutionForLevel lvl) petEvolutions /\
  Evolution.minLevel (evolutionForLevel lvl) <= lvl /\
  forall e, In e petEvolutions -> Evolution.minLevel e <= lvl ->
            Evolution.minLevel e <= Evolution.minLevel (evolutionForLevel lvl).
Proof.
  intros Hlvl. unfold evolutionForLevel. cbn [petEvolutions rev app List.find Evolution.minLevel].
  repeat match goal with
  | |- context [?a <=? lvl] => destruct (Z.leb_spec a lvl)
  end; cbn [hd];
  (split; [cbn; tauto|]); (split; [cbn; lia|]);
  intros e He; cbn in He;
  repeat (destruct He as [<-|He]; [cbn; lia|]); contradiction.
Qed.

(** ** Hibernation entry and exit (C2) *)

Lemma asleepSince_invariant t : startTimeIffHibernating (gameData (asleepSince t)).
Proof. split; intros _; cbn; congruence. Qed.

(** C2, as stated, fails: after waking a pet that fell asleep at time 1000,
    [petHibernating] is false while [hibernationStartTime] still holds 1000,
    so the start time is present without the pet hibernating. *)
Theorem wake_keeps_start_time :
  petHibernating (gameData (wakeFromHibernation (asleepSince 1000))) = false /\
  hibernationStartTime (gameData (wakeFromHibernation (asleepSince 1000))) = Some 1000 /\
  ~ startTimeIffHibernating (gameData (wakeFromHibernation (asleepSince 1000))).
Proof.
  split; [reflexivity|]. split; [reflexivity|].
  intros [_ H]. cbn in H. discriminate H. congruence.
Qed.

(** C2, amended: entering hibernation sets the flag and records the current
    timestamp; waking clears the flag and leaves the recorded timestamp as it
    was.  So a present start time follows from hibernating (one direction of
    the invariant), and the hibernation check preserves that direction. *)
Theorem hibernation_start_time now w :
  (petHibernating (gameData (enterHibernation now w)) = true /\
   hibernationStartTime (gameData (enterHibernation now w)) = Some now) /\
  (petHibernating (gameData (wakeFromHibernation w)) = false /\
   hibernationStartTime (gameData (wakeFromHibernation w))
   = hibernationStartTime (gameData w)) /\
  ((petHibernating (gameData w) = true -> hibernationStartTime (gameData w) <> None) ->
   petHibernating (gameData (checkHibernation now w)) = true ->
   hibernationStartTime (gameData (checkHibernation now w)) <> None).
Proof.
  split; [split; reflexivity|]. split; [split; reflexivity|].
  unfold checkHibernation, when, ifte, seq, skip.
  destruct (Qleb (petEnergy (gameData w)) 0 && negb (petHibernating (gameData w))) eqn:E1.
  - intros _.
    destruct (Qleb 20 (petEnergy (gameData (enterHibernation now w)))
              && petHibernating (gameData (enterHibernation now w))).
    + intros H. discriminate H.
    + intros _. discriminate.
  - destruct (Qleb 20 (petEnergy (gameData w)) && petHibernating (gameData w));
      cbn; intros; [congruence|auto].
Qed.

Lemma hibernation_start_time_witness :
  petHibernating (gameData (checkHibernation 1000 (asleepSince 500))) = true /\
  hibernationStartTime (gameData (checkHibernation 1000 (asleepSince 500))) <> None.
Proof.
  split; [reflexivity|].
  apply (hibernation_start_time 1000 (asleepSince 500)).
  - intros _. cbn. congruence.
  - reflexivity.
Defined.

(** ** Stat bounds (C3) *)

Lemma min100_inRange v d :
  inRange v -> (0 <= d)%Q -> inRange (min100 (v + d)).
Proof.
  unfold inRange, min100. intros [H0 H1] Hd.
  destruct (Q.min_spec 100 (v + d)) as [[Hc ->]|[Hc ->]]; lra.
Qed.

Lemma max0_inRange v d :
  inRange v -> (0 <= d)%Q -> inRange (max0 (v - d)).
Proof.
  unfold inRange, max0. intros [H0 H1] Hd.
  destruct (Q.max_spec 0 (v - d)) as [[Hc ->]|[Hc ->]]; lra.
Qed.

(** Building blocks: sequencing, sink calls, guarded and clamped writes. *)

Lemma keeps_skip : KeepsStats skip.
Proof. intros w H. exact H. Qed.

Lemma keeps_seq p q : KeepsStats p -> KeepsStats q -> KeepsStats (p >>> q).
Proof. intros Hp Hq w H. apply Hq, Hp, H. Qed.

Lemma keeps_emit e : KeepsStats (emit e).
Proof. intros w H. exact H. Qed.

Lemma keeps_updateTasks f : KeepsStats (updateTasks f).
Proof. intros w H. exact H. Qed.

Lemma keeps_ifte c p q : KeepsStats p -> KeepsStats q -> KeepsStats (ifte c p q).
Proof. intros Hp Hq w H. unfold ifte. destruct (c (gameData w)); auto. Qed.

Lemma keeps_when c p : KeepsStats p -> KeepsStats (when c p).
Proof. intros Hp. apply keeps_ifte; [exact Hp|apply keeps_skip]. Qed.

(** An assignment to a field other than the three stats. *)
Lemma keeps_update_other f :
  (forall g, petHappiness (f g) = petHappiness g) ->
  (forall g, petEnergy (f g) = petEnergy g) ->
  (forall g, petHunger (f g) = petHunger g) ->
  KeepsStats (update f).
Proof.
  intros Hh He Hu w H. unfold statsInRange, update. cbn [gameData].
  rewrite Hh, He, Hu. exact H.
Qed.

Lemma keeps_happiness_up d :
  (0 <= d)%Q ->
  KeepsStats (update (fun g => set_petHappiness (min100 (petHappiness g + d)) g)).
Proof.
  intros Hd w (Hh & He & Hu). repeat split; try apply He; try apply Hu;
    apply (min100_inRange _ _ Hh Hd).
Qed.

Lemma keeps_happiness_down d :
  (0 <= d)%Q ->
  KeepsStats (update (fun g => set_petHappiness (max0 (petHappiness g - d)) g)).
Proof.
  intros Hd w (Hh & He & Hu). repeat split; try apply He; try apply Hu;
    apply (max0_inRange _ _ Hh Hd).
Qed.

Lemma keeps_energy_up d :
  (0 <= d)%Q ->
  KeepsStats (update (fun g => set_petEnergy (min100 (petEnergy g + d)) g)).
Proof.
  intros Hd w (Hh & He & Hu). repeat split; try apply Hh; try apply Hu;
    apply (min100_inRange _ _ He Hd).
Qed.

Lemma keeps_energy_down d :
  (0 <= d)%Q ->
  KeepsStats (update (fun g => set_petEnergy (max0 (petEnergy g - d)) g)).
Proof.
  intros Hd w (Hh & He & Hu). repeat split; try apply Hh; try apply Hu;
    apply (max0_inRange _ _ He Hd).
Qed.

Lemma keeps_hunger_up d :
  (0 <= d)%Q ->
  KeepsStats (update (fun g => set_petHunger (min100 (petHunger g + d)) g)).
Proof.
  intros Hd w (Hh & He & Hu). repeat split; try apply Hh; try apply He;
    apply (min100_inRange _ _ Hu Hd).
Qed.

Lemma keeps_hunger_down d :
  (0 <= d)%Q ->
  KeepsStats (update (fun g => set_petHunger (max0 (petHunger g - d)) g)).
Proof.
  intros Hd w (Hh & He & Hu). repeat split; try apply Hh; try apply He;
    apply (max0_inRange _ _ Hu Hd).
Qed.

#[local] Hint Resolve keeps_skip keeps_seq keeps_emit keeps_updateTasks
  keeps_ifte keeps_when keeps_happiness_up keeps_happiness_down
  keeps_energy_up keeps_energy_down keeps_hunger_up keeps_hunger_down : stats.
#[local] Hint Extern 1 (_ <= _)%Q => lra : stats.
#[local] Hint Extern 2 (KeepsStats (update _)) =>
  apply keeps_update_other; reflexivity : stats.
#[local] Hint Extern 1 (KeepsStats (showCelebration _)) => apply keeps_emit : stats.
#[local] Hint Extern 1 (KeepsStats (playSound _)) => apply keeps_emit : stats.
#[local] Hint Extern 1 (KeepsStats (setTimeout _ _)) => apply keeps_emit : stats.
#[local] Hint Extern 1 (KeepsStats (showFloatingXP _)) => apply keeps_emit : stats.
#[local] Hint Extern 1 (KeepsStats updatePetDisplay) => apply keeps_emit : stats.
#[local] Hint Extern 1 (KeepsStats updatePlayerStats) => apply keeps_emit : stats.
#[local] Hint Extern 1 (KeepsStats renderTasks) => apply keeps_emit : stats.
#[local] Hint Extern 1 (KeepsStats renderAchievements) => apply keeps_emit : stats.
#[local] Hint Extern 1 (KeepsStats saveData) => apply keeps_emit : stats.
#[local] Hint Extern 1 (KeepsStats createHearts) => apply keeps_emit : stats.
#[local] Hint Extern 1 (KeepsStats createConfetti) => apply keeps_emit : stats.

Lemma keeps_enterHibernation now : KeepsStats (enterHibernation now).
Proof. unfold enterHibernation. keeps. Qed.

Lemma keeps_wakeFromHibernation : KeepsStats wakeFromHibernation.
Proof. unfold wakeFromHibernation. keeps. Qed.

#[local] Hint Resolve keeps_enterHibernation keeps_wakeFromHibernation : stats.

Lemma keeps_checkHibernation now : KeepsStats (checkHibernation now).
Proof. unfold checkHibernation. keeps. Qed.

#[local] Hint Resolve keeps_checkHibernation : stats.

Lemma keeps_petPet now : KeepsStats (petPet now).
Proof.
  intros w H. unfold petPet.
  destruct (now - petLastPet (gameData w) <? 10000); [exact H|].
  keeps_here.
Qed.

Lemma keeps_feedPet : KeepsStats feedPet.
Proof. unfold feedPet. keeps. Qed.

Lemma keeps_boostPetEnergy : KeepsStats boostPetEnergy.
Proof. unfold boostPetEnergy. keeps. Qed.

Lemma keeps_decayStats m : (0 <= m)%Q -> KeepsStats (decayStats m).
Proof.
  intros Hm. unfold decayStats.
  assert (0 <= 20 * m)%Q by lra. assert (0 <= 5 * m)%Q by lra.
  assert (0 <= 15 * m)%Q by lra. assert (0 <= 10 * m)%Q by lra.
  assert (0 <= 8 * m)%Q by lra.
  keeps.
Qed.

Lemma minutes_multiplier_nonneg now g :
  Qleb 1 (minutesSinceLastUpdate now g) = true ->
  (0 <= minutesSinceLastUpdate now g / 60)%Q.
Proof.
  intros H. apply Qleb_le in H.
  apply Qle_shift_div_l; lra.
Qed.

Lemma keeps_updatePetNeeds now : KeepsStats (updatePetNeeds now).
Proof.
  intros w H. unfold updatePetNeeds.
  destruct (Qleb 1 (minutesSinceLastUpdate now (gameData w))) eqn:E; [|exact H].
  pose proof (keeps_decayStats _ (minutes_multiplier_nonneg _ _ E)).
  keeps_here.
Qed.

Lemma keeps_unlockAchievement a : KeepsStats (unlockAchievement a).
Proof. unfold unlockAchievement. keeps. Qed.

Lemma keeps_checkAchievement a : KeepsStats (checkAchievement a).
Proof.
  intros w H. unfold checkAchievement.
  destruct (isUnlocked _ _); [exact H|].
  destruct (requirementMet _ _); [|exact H].
  apply keeps_unlockAchievement, H.
Qed.

Lemma keeps_checkAchievementList l : KeepsStats (checkAchievementList l).
Proof.
  induction l as [|a l IH]; intros w H; [exact H|].
  apply IH, keeps_checkAchievement, H.
Qed.

Lemma keeps_checkAchievements : KeepsStats checkAchievements.
Proof. apply keeps_checkAchievementList. Qed.

Lemma keeps_checkPetEvolution : KeepsStats checkPetEvolution.
Proof.
  intros w H. unfold checkPetEvolution.
  destruct (_ <? _); exact H.
Qed.

#[local] Hint Resolve keeps_checkAchievements keeps_checkPetEvolution
  keeps_feedPet keeps_boostPetEnergy : stats.

Lemma keeps_levelUp : KeepsStats levelUp.
Proof.
  unfold levelUp.
  assert (KeepsStats (fun w =>
     let is5LevelMilestone := Z.rem (level (gameData w)) 5 =? 0 in
     if is5LevelMilestone then
       (showCelebration (NMegaLevelUp (level (gameData w))) >>>
        createConfetti >>>
        setTimeout CbConfetti 200 >>>
        setTimeout CbConfetti 400 >>>
        checkPetEvolution) w
     else
       (showCelebration (NLevelUp (level (gameData w))) >>>
        createConfetti) w)).
  { intros w H. cbv zeta. destruct (_ =? 0); keeps_here. }
  keeps.
Qed.

#[local] Hint Resolve keeps_levelUp : stats.

Lemma keeps_addXP amount : KeepsStats (addXP amount).
Proof.
  unfold addXP.
  assert (KeepsStats (fun w =>
     let xpNeeded := getXPForLevel (level (gameData w)) in
     if xpNeeded <=? xp (gameData w) then levelUp w else w)).
  { intros w H. cbv zeta. destruct (_ <=? _); [keeps_here|exact H]. }
  keeps.
Qed.

Lemma keeps_updateStreak zone now : KeepsStats (updateStreak zone now).
Proof.
  intros w H. unfold updateStreak. cbv zeta.
  destruct (lastCompletedDate (gameData w)) as [lastDay|]; [|keeps_here].
  destruct (lastDay =? _); [keeps_here|].
  destruct (negb _); keeps_here.
Qed.

#[local] Hint Resolve keeps_addXP keeps_updateStreak : stats.

Lemma keeps_toggleTask id zone now :
  KeepsStats (fun w => worldOf (toggleTask id zone now w)).
Proof.
  intros w H. unfold toggleTask. cbv zeta.
  destruct (petHibernating (gameData w)); [exact H|].
  destruct (findTask id (tasks w)) as [k|]; [|exact H].
  destruct (negb (Task.completed k)); [|exact H].
  cbn [worldOf]. keeps_here.
Qed.

Lemma keeps_deleteTask id confirmed : KeepsStats (deleteTask id confirmed).
Proof. unfold deleteTask. destruct confirmed; keeps. Qed.

(** C3: every mutating operation maps stats inside [0,100] to stats inside
    [0,100]: the decay tick, petting, feeding, the energy boost, level-up,
    achievement unlock, hibernation entry and exit, and the handlers built
    from them. *)
Theorem mutations_keep_stats_in_range (m : Mutation) (w : World) :
  statsInRange (gameData w) ->
  statsInRange (gameData (runMutation m w)).
Proof.
  revert w. change (KeepsStats (runMutation m)).
  destruct m; cbn [runMutation].
  - apply keeps_updatePetNeeds.
  - apply keeps_petPet.
  - apply keeps_feedPet.
  - apply keeps_boostPetEnergy.
  - apply keeps_levelUp.
  - apply keeps_addXP.
  - apply keeps_unlockAchievement.
  - apply keeps_checkAchievements.
  - apply keeps_updateStreak.
  - apply keeps_checkPetEvolution.
  - apply keeps_enterHibernation.
  - apply keeps_wakeFromHibernation.
  - apply keeps_checkHibernation.
  - apply keeps_toggleTask.
  - apply keeps_deleteTask.
Qed.

(** Ten days without a tick: the decay saturates at the bounds and the pet
    falls asleep. *)
Example staleGame_decay_saturates :
  let g := gameData (updatePetNeeds 864001000 staleGame) in
  (petEnergy g == 0)%Q /\ (petHunger g == 100)%Q /\ (petHappiness g == 0)%Q /\
  petHibernating g = true.
Proof. vm_compute. repeat split. Qed.

Lemma mutations_keep_stats_in_range_witness :
  statsInRange (gameData (runMutation (DecayTick 864001000) staleGame)).
Proof.
  apply (mutations_keep_stats_in_range (DecayTick 864001000) staleGame).
  unfold statsInRange, inRange. cbn. repeat split; lra.
Defined.

(** ** Hysteresis of the hibernation check (C4) *)

Lemma checkHibernation_cases now w :
  checkHibernation now w =
    if petHibernating (gameData w) then
      if Qleb 20 (petEnergy (gameData w)) then wakeFromHibernation w else w
    else
      if Qleb (petEnergy (gameData w)) 0 then
        if Qleb 20 (petEnergy (gameData w))
        then wakeFromHibernation (enterHibernation now w)
        else enterHibernation now w
      else w.
Proof.
  unfold checkHibernation, when, ifte, seq, skip.
  destruct (petHibernating (gameData w)) eqn:Hh;
    destruct (Qleb (petEnergy (gameData w)) 0) eqn:E0; cbn [andb negb];
    try rewrite Hh; rewrite ?andb_true_r, ?andb_false_r; try reflexivity.
Qed.

(** The two thresholds exclude each other, so the check never enters and
    leaves hibernation in one call. *)
Lemma thresholds_disjoint e : Qleb e 0 = true -> Qleb 20 e = false.
Proof.
  intros H. apply Qleb_le in H. apply Qleb_gt. lra.
Qed.

(** C4: the hibernation check is a hysteresis deadband.  A hibernating pet
    with energy strictly between 0 and 20 is left exactly as it is, and a
    hibernating pet wakes only on energy >= 20; an awake pet with energy
    strictly above 0 is left exactly as it is, and an awake pet falls asleep
    only on energy <= 0. *)
Theorem checkHibernation_hysteresis now w :
  (petHibernating (gameData w) = true ->
   ((0 < petEnergy (gameData w))%Q -> (petEnergy (gameData w) < 20)%Q ->
    checkHibernation now w = w) /\
   (petHibernating (gameData (checkHibernation now w)) = false <->
    (20 <= petEnergy (gameData w))%Q)) /\
  (petHibernating (gameData w) = false ->
   ((0 < petEnergy (gameData w))%Q -> checkHibernation now w = w) /\
   (petHibernating (gameData (checkHibernation now w)) = true <->
    (petEnergy (gameData w) <= 0)%Q)).
Proof.
  rewrite checkHibernation_cases. split; intros Hh; rewrite Hh.
  - split.
    + intros _ Hlt. apply Qleb_gt in Hlt. now rewrite Hlt.
    + rewrite <- Qleb_le.
      destruct (Qleb 20 (petEnergy (gameData w))); cbn; rewrite ?Hh;
        split; congruence.
  - split.
    + intros Hgt. apply Qleb_gt in Hgt. now rewrite Hgt.
    + rewrite <- Qleb_le.
      destruct (Qleb (petEnergy (gameData w)) 0) eqn:E0.
      * rewrite (thresholds_disjoint _ E0). cbn. split; congruence.
      * rewrite Hh. split; congruence.
Qed.

Lemma checkHibernation_hysteresis_witness :
  checkHibernation 2000 dozingGame = dozingGame /\
  checkHibernation 2000 staleGame = staleGame.
Proof.
  split.
  - apply (proj1 (proj1 (checkHibernation_hysteresis 2000 dozingGame) eq_refl));
      cbn; lra.
  - apply (proj1 (proj2 (checkHibernation_hysteresis 2000 staleGame) eq_refl));
      cbn; lra.
Defined.

(** ** Completing and deleting tasks (C5, C6) *)

Lemma findTask_None id l :
  findTask id l = None <-> (forall k, In k l -> Task.id k <> id).
Proof.
  unfold findTask. induction l as [|k l IH]; cbn.
  - split; [intros _ k []|reflexivity].
  - destruct (Z.eqb_spec (Task.id k) id) as [E|E].
    + split; [discriminate|]. intros H. exfalso. apply (H k); auto.
    + rewrite IH. split.
      * intros H k' [<-|Hin]; auto.
      * intros H k' Hin. apply H. auto.
Qed.

Lemma removeTask_absent id l :
  findTask id l = None -> removeTask id l = l.
Proof.
  unfold findTask, removeTask. induction l as [|k l IH]; cbn; [reflexivity|].
  destruct (Task.id k =? id); cbn; [discriminate|].
  intros H. now rewrite IH.
Qed.

(** C5: while the pet hibernates, [toggleTask] returns after the
    "pet is sleeping" popup and the hibernate sound and nothing else: the game
    data (XP included) and the task list are what they were, whatever the
    task id. *)
Theorem toggleTask_blocked_while_hibernating id zone now w :
  petHibernating (gameData w) = true ->
  exists w',
    toggleTask id zone now w = Returned w' /\
    gameData w' = gameData w /\
    tasks w' = tasks w /\
    trace w' = trace w ++ [ShowCelebration NPetSleeping; PlaySound SndHibernate].
Proof.
  intros Hh. unfold toggleTask. cbv zeta. rewrite Hh.
  eexists. split; [reflexivity|].
  unfold_proc. cbn. repeat split. now rewrite <- app_assoc.
Qed.

Lemma toggleTask_blocked_while_hibernating_witness :
  exists w',
    toggleTask 7 utc 2000 blockedGame = Returned w' /\
    gameData w' = gameData blockedGame /\
    tasks w' = tasks blockedGame /\
    trace w' = trace blockedGame ++ [ShowCelebration NPetSleeping; PlaySound SndHibernate].
Proof.
  apply (toggleTask_blocked_while_hibernating 7 utc 2000 blockedGame).
  reflexivity.
Defined.

(** With the pet awake, [toggleTask] on an id that is not in the list reads
    [completed] of [undefined]: it throws, before any write. *)
Lemma toggleTask_absent_throws id zone now w :
  petHibernating (gameData w) = false ->
  findTask id (tasks w) = None ->
  toggleTask id zone now w = Threw TypeError w.
Proof.
  intros Hh Hf. unfold toggleTask. cbv zeta. now rewrite Hh, Hf.
Qed.

(** [deleteTask] on an id that is not in the list changes neither the game
    data nor the task list, whatever the answer to the dialog. *)
Lemma deleteTask_absent_noop id confirmed w :
  findTask id (tasks w) = None ->
  gameData (deleteTask id confirmed w) = gameData w /\
  tasks (deleteTask id confirmed w) = tasks w.
Proof.
  intros Hf. unfold deleteTask. destruct confirmed; [|split; reflexivity].
  unfold_proc. cbn. split; [reflexivity|]. now apply removeTask_absent.
Qed.

(** C6: with the pet awake and task 7 the only task, [toggleTask] on the
    absent id 42 does not return: it throws a TypeError (state untouched),
    while [deleteTask] on the same id is the no-op the claim describes. *)
Theorem toggleTask_absent_id_throws :
  findTask 42 (tasks openGame) = None /\
  toggleTask 42 utc 2000 openGame = Threw TypeError openGame /\
  gameData (deleteTask 42 true openGame) = gameData openGame /\
  tasks (deleteTask 42 true openGame) = tasks openGame.
Proof. repeat split. Qed.

(** ** XP awards and level-up (C7) *)

Lemma checkPetEvolution_frame {A} (f : GameData -> A) w :
  (forall v g, f (set_petStage v g) = f g) ->
  f (gameData (checkPetEvolution w)) = f (gameData w).
Proof.
  intros Hf. unfold checkPetEvolution.
  destruct (_ <? _); [|reflexivity].
  unfold evolvePet, seq. gd_simpl. apply Hf.
Qed.

(** [levelUp] on the progression fields. *)
Lemma levelUp_progress w :
  level (gameData (levelUp w)) = level (gameData w) + 1 /\
  xp (gameData (levelUp w)) = xp (gameData w) - getXPForLevel (level (gameData w)) /\
  totalXP (gameData (levelUp w)) = totalXP (gameData w).
Proof.
  unfold levelUp, seq, updatePetDisplay.
  rewrite !gameData_emit.
  rewrite (checkAchievements_frame level), (checkAchievements_frame xp),
    (checkAchievements_frame totalXP) by reflexivity.
  gd_simpl.
  destruct (_ =? 0).
  - rewrite (checkPetEvolution_frame level), (checkPetEvolution_frame xp),
      (checkPetEvolution_frame totalXP) by reflexivity.
    gd_simpl. repeat split.
  - gd_simpl. repeat split.
Qed.

(** [addXP] on the progression fields: one threshold test, at most one
    [levelUp]. *)
Lemma addXP_progress amount w :
  let g := gameData w in
  let g' := gameData (addXP amount w) in
  totalXP g' = totalXP g + amount /\
  if getXPForLevel (level g) <=? xp g + amount
  then level g' = level g + 1 /\ xp g' = xp g + amount - getXPForLevel (level g)
  else level g' = level g /\ xp g' = xp g + amount.
Proof.
  cbv zeta. unfold addXP, seq. gd_simpl.
  destruct (_ <=? _).
  - destruct (levelUp_progress
                (emit (ShowFloatingXP amount)
                   (update (fun g => set_totalXP (totalXP g + amount) g)
                      (update (fun g => set_xp (xp g + amount) g) w))))
      as (Hl & Hx & Ht).
    rewrite Hl, Hx, Ht. gd_simpl. repeat split.
  - gd_simpl. repeat split.
Qed.

(** C7: [addXP amount] adds [amount] to [xp] and to [totalXP]; when the new
    [xp] reaches 100 + (level-1)*50 the level goes up by exactly one and that
    amount is taken off [xp], otherwise the level stays; so from level 1 with
    90 XP, an award of 20 gives level 2 and 10 XP. *)
Theorem addXP_single_level_up amount w :
  let g := gameData w in
  let g' := gameData (addXP amount w) in
  totalXP g' = totalXP g + amount /\
  (100 + (level g - 1) * 50 <= xp g + amount ->
   level g' = level g + 1 /\
   xp g' = xp g + amount - (100 + (level g - 1) * 50)) /\
  (xp g + amount < 100 + (level g - 1) * 50 ->
   level g' = level g /\ xp g' = xp g + amount) /\
  (level g = 1 -> xp g = 90 -> amount = 20 -> level g' = 2 /\ xp g' = 10).
Proof.
  cbv zeta. destruct (addXP_progress amount w) as [Ht Hc]. cbv zeta in Hc.
  unfold getXPForLevel in Hc.
  destruct (Z.leb_spec (100 + (level (gameData w) - 1) * 50)
              (xp (gameData w) + amount)) as [Hle|Hlt].
  - split; [exact Ht|]. split; [intros _; exact Hc|].
    split; [lia|]. intros Hl Hx Ha. lia.
  - split; [exact Ht|]. split; [lia|].
    split; [intros _; exact Hc|]. intros Hl Hx Ha. lia.
Qed.

Lemma addXP_single_level_up_witness :
  level (gameData (addXP 20 (freshGame 90))) = 2 /\
  xp (gameData (addXP 20 (freshGame 90))) = 10 /\
  level (gameData (addXP 5 (freshGame 90))) = 1 /\
  xp (gameData (addXP 5 (freshGame 90))) = 95.
Proof.
  destruct (addXP_single_level_up 20 (freshGame 90)) as (_ & H1 & _ & H3).
  destruct (addXP_single_level_up 5 (freshGame 90)) as (_ & _ & H2 & _).
  split; [apply (H3 eq_refl eq_refl eq_refl)|].
  split; [apply (H3 eq_refl eq_refl eq_refl)|].
  split; [apply H2; cbn; lia|apply H2; cbn; lia].
Defined.

(** A large award crosses two thresholds and still levels up only once. *)
Example addXP_no_cascade :
  level (gameData (addXP 500 (freshGame 0))) = 2 /\
  xp (gameData (addXP 500 (freshGame 0))) = 400.
Proof. vm_compute. split; reflexivity. Qed.

(** ** Idempotence of the decay tick (C8) *)

Lemma checkHibernation_petLastUpdate now w :
  petLastUpdate (gameData (checkHibernation now w)) = petLastUpdate (gameData w).
Proof.
  rewrite checkHibernation_cases.
  destruct (petHibernating (gameData w));
    repeat match goal with |- context [if ?c then _ else _] => destruct c end;
    reflexivity.
Qed.

(** No time has passed since an update made at [now]. *)
Lemma minutes_after_update now g :
  petLastUpdate g = now -> Qleb 1 (minutesSinceLastUpdate now g) = false.
Proof.
  intros H. unfold minutesSinceLastUpdate. rewrite H.
  destruct (now =? 0); rewrite Z.sub_diag; reflexivity.
Qed.

(** A tick that applies stamps the state with [now]. *)
Lemma updatePetNeeds_stamps now w :
  Qleb 1 (minutesSinceLastUpdate now (gameData w)) = true ->
  petLastUpdate (gameData (updatePetNeeds now w)) = now.
Proof.
  intros E. unfold updatePetNeeds. cbv zeta. rewrite E.
  unfold seq, saveData, updatePetDisplay. rewrite !gameData_emit.
  rewrite checkHibernation_petLastUpdate. reflexivity.
Qed.

(** C8: a second call of the decay function with the same [now] is a no-op:
    it returns the world the first call produced, sink trace included.  When
    the first call applied a tick it left [petLastUpdate = now], so the
    second sees zero elapsed minutes; when it did not, nothing changed at
    all. *)
Theorem updatePetNeeds_idempotent now w :
  updatePetNeeds now (updatePetNeeds now w) = updatePetNeeds now w.
Proof.
  destruct (Qleb 1 (minutesSinceLastUpdate now (gameData w))) eqn:E.
  - pose proof (updatePetNeeds_stamps now w E) as Hs.
    apply minutes_after_update in Hs.
    unfold updatePetNeeds at 1. cbv zeta. now rewrite Hs.
  - assert (updatePetNeeds now w = w) as ->.
    { unfold updatePetNeeds. cbv zeta. now rewrite E. }
    unfold updatePetNeeds. cbv zeta. now rewrite E.
Qed.

(** The first call does change the state when a minute or more has passed. *)
Example updatePetNeeds_first_call_applies :
  petLastUpdate (gameData (updatePetNeeds 864001000 staleGame)) = 864001000 /\
  updatePetNeeds 864001000 staleGame <> staleGame.
Proof.
  split; [reflexivity|]. intros H.
  apply (f_equal (fun w => petLastUpdate (gameData w))) in H.
  vm_compute in H. discriminate H.
Qed.

(** ** Daily streak (C9) *)


(** In every zone the day of [now - 24h] is not later than today. *)
Lemma yesterday_not_later zone now :
  toDateString zone (now - 86400000) <= toDateString zone now.
Proof.
  unfold toDateString. apply Z.div_le_mono; [lia|].
  pose proof (utcOffset_day zone now). lia.
Qed.

(** [updateStreak] on the two streak fields. *)
Lemma updateStreak_fields zone now w :
  let g := gameData w in
  let g' := gameData (updateStreak zone now w) in
  lastCompletedDate g' = Some (toDateString zone now) /\
  streak g' =
    match lastCompletedDate g with
    | None => 1
    | Some lastDay =>
        if lastDay =? toDateString zone (now - 86400000) then streak g + 1
        else if lastDay =? toDateString zone now then streak g
        else 1
    end.
Proof.
  cbv zeta. unfold updateStreak. cbv zeta. unfold seq.
  rewrite (checkAchievements_frame lastCompletedDate),
    (checkAchievements_frame streak) by reflexivity.
  destruct (lastCompletedDate (gameData w)) as [lastDay|]; [|split; reflexivity].
  destruct (lastDay =? toDateString zone (now - 86400000)); [split; reflexivity|].
  destruct (lastDay =? toDateString zone now); split; reflexivity.
Qed.

(** C9: in America/New_York the clocks went back on Sunday 3 November 2024,
    which made that day 25 hours long.  A first completion on Saturday
    2 November at noon gives streak 1.  A second completion on Sunday at
    23:30 has the prior completion day as yesterday, yet [updateStreak]
    takes "yesterday" to be the day of [now - 24h], which is still Sunday:
    the prior day matches neither yesterday nor today and the streak is reset
    to 1 instead of rising to 2. *)
Theorem updateStreak_resets_streak_on_25_hour_day :
  let first := updateStreak newYork2024 nov2Noon staleGame in
  let second := updateStreak newYork2024 nov3Late first in
  toDateString newYork2024 nov3Late = toDateString newYork2024 nov2Noon + 1 /\
  toDateString newYork2024 (nov3Late - 86400000) = toDateString newYork2024 nov3Late /\
  lastCompletedDate (gameData first) = Some (toDateString newYork2024 nov3Late - 1) /\
  streak (gameData first) = 1 /\
  streak (gameData second) = 1.
Proof. vm_compute. repeat split. Qed.

(** The same slip after a 23-hour day: at 00:30 on Monday 11 March 2024 in
    New York, [now - 24h] falls on Saturday 9 March, so a completion two days
    back passes for yesterday and the streak rises instead of restarting. *)
Example updateStreak_counts_gap_after_23_hour_day :
  let today := toDateString newYork2024 mar11Early in
  let w := mkWorld (set_streak 3 (set_lastCompletedDate (Some (today - 2))
                                    (defaultGameData 1000))) [] [] in
  toDateString newYork2024 (mar11Early - 86400000) = today - 2 /\
  streak (gameData (updateStreak newYork2024 mar11Early w)) = 4.
Proof. vm_compute. split; reflexivity. Qed.

(** ** The pet_lover achievement (C10) *)

(** The requirement test reads [streak], [level] and [totalCompleted] only. *)
Lemma requirementMet_ext a g g' :
  streak g' = streak g -> level g' = level g ->
  totalCompleted g' = totalCompleted g ->
  requirementMet a g' = requirementMet a g.
Proof. intros Hs Hl Ht. unfold requirementMet. now rewrite Hs, Hl, Ht. Qed.

Lemma requirementMet_checkAchievement a b w :
  requirementMet a (gameData (checkAchievement b w)) = requirementMet a (gameData w).
Proof.
  apply requirementMet_ext.
  - apply (checkAchievement_frame streak); reflexivity.
  - apply (checkAchievement_frame level); reflexivity.
  - apply (checkAchievement_frame totalCompleted); reflexivity.
Qed.

Lemma isUnlocked_unlockAchievement k a w :
  isUnlocked k (gameData (unlockAchievement a w))
  = String.eqb (Achievement.id a) k || isUnlocked k (gameData w).
Proof.
  unfold unlockAchievement, seq, isUnlocked. gd_simpl.
  rewrite lookup_insert.
  destruct (String.eqb_spec (Achievement.id a) k) as [E|E];
    destruct (decide (Achievement.id a = k)); try contradiction; reflexivity.
Qed.

Lemma isUnlocked_checkAchievement k a w :
  isUnlocked k (gameData (checkAchievement a w))
  = isUnlocked k (gameData w)
    || (String.eqb (Achievement.id a) k && requirementMet a (gameData w)).
Proof.
  unfold checkAchievement.
  destruct (isUnlocked (Achievement.id a) (gameData w)) eqn:Ea.
  - destruct (String.eqb_spec (Achievement.id a) k) as [<-|E].
    + now rewrite Ea.
    + now rewrite orb_false_r.
  - destruct (requirementMet a (gameData w)).
    + rewrite isUnlocked_unlockAchievement, andb_true_r. apply orb_comm.
    + now rewrite andb_false_r, orb_false_r.
Qed.

Lemma existsb_pointwise {A} (p q : A -> bool) l :
  (forall x, p x = q x) -> existsb p l = existsb q l.
Proof.
  intros H. induction l as [|x l IH]; cbn; [reflexivity|].
  now rewrite H, IH.
Qed.

(** After the check, an id is unlocked when it was before or when some row
    of the table with that id has its requirement met. *)
Lemma isUnlocked_checkAchievementList k l w :
  isUnlocked k (gameData (checkAchievementList l w))
  = isUnlocked k (gameData w)
    || existsb (fun a => String.eqb (Achievement.id a) k
                         && requirementMet a (gameData w)) l.
Proof.
  revert w. induction l as [|a l IH]; intros w.
  - cbn. now rewrite orb_false_r.
  - unfold checkAchievementList in *. cbn [fold_left existsb].
    rewrite IH, isUnlocked_checkAchievement, <- orb_assoc. f_equal. f_equal.
    apply existsb_pointwise. intros b. now rewrite requirementMet_checkAchievement.
Qed.

Lemma checkHibernation_frame {A} (f : GameData -> A) now w :
  (forall v g, f (set_petHibernating v g) = f g) ->
  (forall v g, f (set_hibernationStartTime v g) = f g) ->
  (forall v g, f (set_petHappiness v g) = f g) ->
  f (gameData (checkHibernation now w)) = f (gameData w).
Proof.
  intros H1 H2 H3. rewrite checkHibernation_cases.
  unfold enterHibernation, wakeFromHibernation, seq.
  destruct (petHibernating (gameData w));
    repeat match goal with |- context [if ?c then _ else _] => destruct c end;
    gd_simpl; repeat (rewrite H1 || rewrite H2 || rewrite H3); reflexivity.
Qed.

(** Petting writes [petLastPet], the energy and happiness stats and, through
    the hibernation check, the hibernation fields; nothing else. *)
Lemma petPet_frame {A} (f : GameData -> A) now w :
  (forall v g, f (set_petLastPet v g) = f g) ->
  (forall v g, f (set_petEnergy v g) = f g) ->
  (forall v g, f (set_petHibernating v g) = f g) ->
  (forall v g, f (set_hibernationStartTime v g) = f g) ->
  (forall v g, f (set_petHappiness v g) = f g) ->
  f (gameData (petPet now w)) = f (gameData w).
Proof.
  intros H0 He H1 H2 H3. unfold petPet. cbv zeta.
  destruct (_ <? _); [reflexivity|].
  unfold seq, saveData, updatePetDisplay. rewrite !gameData_emit.
  rewrite checkHibernation_frame by assumption.
  unfold ifte. gd_simpl.
  destruct (petHibernating (gameData w)); gd_simpl;
    repeat (rewrite H3 || rewrite He || rewrite H0); reflexivity.
Qed.

(** C10: the pet_lover row has type 'pet', which is neither 'streak' nor
    'level', so its requirement is tested against [totalCompleted]: a locked
    pet_lover is unlocked by the achievement check exactly when
    [totalCompleted >= 10].  Petting changes neither [totalCompleted] nor the
    unlocked set (there is no petting counter), so a check after petting
    decides pet_lover as a check before it. *)
Theorem pet_lover_counts_completed_tasks now w :
  In petLover achievementTable /\
  (forall g, requirementMet petLover g = (10 <=? totalCompleted g)) /\
  (isUnlocked "pet_lover" (gameData w) = false ->
   (isUnlocked "pet_lover" (gameData (checkAchievements w)) = true <->
    10 <= totalCompleted (gameData w))) /\
  totalCompleted (gameData (petPet now w)) = totalCompleted (gameData w) /\
  achievements (gameData (petPet now w)) = achievements (gameData w) /\
  isUnlocked "pet_lover" (gameData (checkAchievements (petPet now w)))
  = isUnlocked "pet_lover" (gameData (checkAchievements w)).
Proof.
  assert (forall v, isUnlocked "pet_lover" (gameData (checkAchievements v))
                    = isUnlocked "pet_lover" (gameData v)
                      || (10 <=? totalCompleted (gameData v))) as Hcheck.
  { intros v. unfold checkAchievements.
    rewrite isUnlocked_checkAchievementList. f_equal.
    cbn. now rewrite orb_false_r. }
  assert (totalCompleted (gameData (petPet now w)) = totalCompleted (gameData w))
    as Ht by (apply (petPet_frame totalCompleted); reflexivity).
  assert (achievements (gameData (petPet now w)) = achievements (gameData w))
    as Ha by (apply (petPet_frame achievements); reflexivity).
  split; [cbn; tauto|]. split; [reflexivity|].
  split.
  { intros Hl. rewrite Hcheck, Hl. cbn [orb]. apply Z.leb_le. }
  split; [exact Ht|]. split; [exact Ha|].
  rewrite !Hcheck, Ht. unfold isUnlocked. now rewrite Ha.
Qed.

(** Ten pettings from a new game leave pet_lover locked. *)
Example ten_pettings_do_not_unlock :
  isUnlocked "pet_lover"
    (gameData (checkAchievements (petTimes 10 11000 staleGame))) = false.
Proof. vm_compute. reflexivity. Qed.

Lemma pet_lover_counts_completed_tasks_witness :
  isUnlocked "pet_lover" (gameData (checkAchievements tenDone)) = true.
Proof.
  destruct (pet_lover_counts_completed_tasks 0 tenDone) as (_ & _ & H & _).
  apply (H eq_refl). cbn. lia.
Defined.

(** ** End-to-end runs *)

(** Completing the open task of a new game: the task is marked, the counters
    move, first_task unlocks, and the removal is scheduled. *)
Example toggleTask_completes :
  let w' := worldOf (toggleTask 7 utc noonD openGame) in
  tasks w' = [Task.complete reportTask] /\
  totalCompleted (gameData w') = 1 /\
  xp (gameData w') = 25 /\ totalXP (gameData w') = 25 /\
  streak (gameData w') = 1 /\
  isUnlocked "first_task" (gameData w') = true /\
  In (SetTimeout (CbRemoveTask 7) 500) (trace w') /\
  tasks (removeCompletedTask 7 w') = [].
Proof. vm_compute. repeat split; auto 20. Qed.

(** One hour of decay drains the last 5 energy: the pet falls asleep and
    loses 30 happiness, completions are rejected, and the fourth petting
    brings energy to 20 and wakes the pet with 20 more happiness. *)
Example hibernation_cycle :
  let t0 := 1000 + 3600000 in
  let asleep := updatePetNeeds t0 tiredGame in
  let blocked := worldOf (toggleTask 7 utc t0 asleep) in
  let three := petTimes 3 t0 blocked in
  let four := petTimes 4 t0 blocked in
  (petHibernating (gameData asleep) = true /\
   (petEnergy (gameData asleep) == 0)%Q /\
   (petHappiness (gameData asleep) == 12)%Q) /\
  (gameData blocked = gameData asleep /\ tasks blocked = [reportTask]) /\
  (petHibernating (gameData three) = true /\
   (petEnergy (gameData three) == 15)%Q) /\
  (petHibernating (gameData four) = false /\
   (petEnergy (gameData four) == 20)%Q /\
   (petHappiness (gameData four) == 52)%Q).
Proof. vm_compute. repeat split. Qed.

(** * Further properties of the code *)

(** ** Evolution selection *)

Lemma evolutionForLevel_stage lvl :
  Evolution.stage (evolutionForLevel lvl) =
    if 25 <=? lvl then 6 else if 20 <=? lvl then 5 else if 15 <=? lvl then 4
    else if 10 <=? lvl then 3 else if 5 <=? lvl then 2 else if 2 <=? lvl then 1
    else 0.
Proof.
  unfold evolutionForLevel.
  cbn [petEvolutions rev app List.find Evolution.minLevel].
  repeat match goal with
  | |- context [?a <=? lvl] => destruct (a <=? lvl)
  end; reflexivity.
Qed.

Lemma evolutionForLevel_below_first lvl :
  lvl < 1 -> evolutionForLevel lvl = firstEvolution.
Proof.
  intros H. unfold evolutionForLevel.
  cbn [petEvolutions rev app List.find Evolution.minLevel].
  repeat match goal with
  | |- context [?a <=? lvl] => destruct (Z.leb_spec a lvl); [lia|]
  end. reflexivity.
Qed.

(** X1: [getPetEvolution] returns a record of the table whose [minLevel] the
    level reaches and is the greatest such; for a level below 1, where no
    record qualifies, it falls back to the first record (the egg). *)
Theorem getPetEvolution_selects g :
  (1 <= level g ->
   In (getPetEvolution g) petEvolutions /\
   Evolution.minLevel (getPetEvolution g) <= level g /\
   forall e, In e petEvolutions -> Evolution.minLevel e <= level g ->
             Evolution.minLevel e <= Evolution.minLevel (getPetEvolution g)) /\
  (level g < 1 -> getPetEvolution g = firstEvolution).
Proof.
  unfold getPetEvolution. split.
  - apply evolutionForLevel_greatest.
  - apply evolutionForLevel_below_first.
Qed.

Lemma getPetEvolution_selects_witness :
  Evolution.minLevel (getPetEvolution (set_level 7 (defaultGameData 0))) <= 7 /\
  getPetEvolution (set_level 0 (defaultGameData 0)) = firstEvolution.
Proof.
  split.
  - apply (proj1 (getPetEvolution_selects (set_level 7 (defaultGameData 0)))).
    cbn. lia.
  - apply (proj2 (getPetEvolution_selects (set_level 0 (defaultGameData 0)))).
    cbn. lia.
Defined.

(** X2: the selected stage lies between 0 and 6 whatever the level, and a
    higher level never selects a lower stage. *)
Theorem getPetEvolution_stage_monotone g g' :
  0 <= Evolution.stage (getPetEvolution g) <= 6 /\
  (level g <= level g' ->
   Evolution.stage (getPetEvolution g) <= Evolution.stage (getPetEvolution g')).
Proof.
  unfold getPetEvolution. rewrite !evolutionForLevel_stage.
  repeat match goal with
  | |- context [?a <=? ?l] => destruct (Z.leb_spec a l)
  end; lia.
Qed.

Lemma getPetEvolution_stage_monotone_witness :
  Evolution.stage (getPetEvolution (set_level 4 (defaultGameData 0)))
  <= Evolution.stage (getPetEvolution (set_level 12 (defaultGameData 0))).
Proof.
  apply (proj2 (getPetEvolution_stage_monotone
                  (set_level 4 (defaultGameData 0))
                  (set_level 12 (defaultGameData 0)))).
  cbn. lia.
Defined.

(** X3: after [checkPetEvolution] the pet stage is the larger of the old
    stage and the stage of the level, so it never drops and never lags
    behind the level; a second check in a row changes nothing (no second
    evolution popup). *)
Theorem checkPetEvolution_catches_up w :
  petStage (gameData (checkPetEvolution w))
  = Z.max (petStage (gameData w)) (Evolution.stage (getPetEvolution (gameData w))) /\
  checkPetEvolution (checkPetEvolution w) = checkPetEvolution w.
Proof.
  split; [apply checkPetEvolution_petStage|].
  pose proof (checkPetEvolution_petStage w) as Hs.
  assert (getPetEvolution (gameData (checkPetEvolution w))
          = getPetEvolution (gameData w)) as He.
  { unfold getPetEvolution. f_equal.
    apply (checkPetEvolution_frame level). reflexivity. }
  unfold checkPetEvolution at 1. cbv zeta. rewrite He, Hs.
  destruct (Z.ltb_spec
              (Z.max (petStage (gameData w))
                 (Evolution.stage (getPetEvolution (gameData w))))
              (Evolution.stage (getPetEvolution (gameData w)))); [lia|].
  reflexivity.
Qed.

(** ** The hibernation check settles the state *)

Lemma settled_checkHibernation now w :
  settled (gameData w) -> checkHibernation now w = w.
Proof.
  intros [Ha Hs]. rewrite checkHibernation_cases.
  destruct (petHibernating (gameData w)).
  - specialize (Hs eq_refl). apply Qleb_gt in Hs. now rewrite Hs.
  - specialize (Ha eq_refl). apply Qleb_gt in Ha. now rewrite Ha.
Qed.

(** X4: after [checkHibernation] an awake pet has energy above 0 and a
    hibernating pet has energy below 20, whatever the state before; so a
    second check in a row does nothing: no second popup, no second happiness
    change. *)
Theorem checkHibernation_settles now now' w :
  settled (gameData (checkHibernation now w)) /\
  checkHibernation now' (checkHibernation now w) = checkHibernation now w.
Proof.
  assert (settled (gameData (checkHibernation now w))) as Hs.
  { rewrite checkHibernation_cases. unfold settled.
    destruct (petHibernating (gameData w)) eqn:Hh.
    - destruct (Qleb 20 (petEnergy (gameData w))) eqn:E.
      + apply Qleb_le in E. cbn. split; intros; [lra|discriminate].
      + apply Qleb_gt in E. rewrite Hh. split; intros; [discriminate|exact E].
    - destruct (Qleb (petEnergy (gameData w)) 0) eqn:E.
      + rewrite (thresholds_disjoint _ E). apply Qleb_le in E. cbn.
        split; intros; [discriminate|lra].
      + apply Qleb_gt in E. rewrite Hh. split; intros; [exact E|discriminate]. }
  split; [exact Hs|]. now apply settled_checkHibernation.
Qed.

(** ** Petting *)

Lemma Qleb_20_min100 v : Qleb 20 (min100 v) = Qleb 20 v.
Proof.
  unfold min100.
  destruct (Qleb 20 v) eqn:E.
  - apply Qleb_le in E. apply Qleb_le. apply Q.min_glb; lra.
  - apply Qleb_gt in E. apply Qleb_gt.
    eapply Qle_lt_trans; [apply Q.le_min_r|exact E].
Qed.

Lemma petPet_applied now w :
  (now - petLastPet (gameData w) <? 10000) = false ->
  petPet now w =
    (update (set_petLastPet now) >>>
     ifte petHibernating
       (update (fun g => set_petEnergy (min100 (petEnergy g + 5)) g) >>>
        update (fun g => set_petHappiness (min100 (petHappiness g + 5)) g) >>>
        emit (Hearts 2) >>>
        playSound SndPet)
       (update (fun g => set_petHappiness (min100 (petHappiness g + 10)) g) >>>
        createHearts >>>
        playSound SndPet) >>>
     checkHibernation now >>>
     updatePetDisplay >>>
     saveData) w.
Proof. intros H. unfold petPet. cbv zeta. now rewrite H. Qed.

(** X5: petting a hibernating pet, once the cooldown has passed, never
    lowers its energy (within [0,100]) and wakes it exactly when the energy
    after the petting has reached the wake threshold 20; an energy of at
    least 15 before the petting is enough for that. *)
Theorem petPet_wakes_from_15 now w :
  petHibernating (gameData w) = true ->
  10000 <= now - petLastPet (gameData w) ->
  (petHibernating (gameData (petPet now w)) = false <->
   (20 <= petEnergy (gameData (petPet now w)))%Q) /\
  ((15 <= petEnergy (gameData w))%Q ->
   petHibernating (gameData (petPet now w)) = false) /\
  ((petEnergy (gameData w) <= 100)%Q ->
   (petEnergy (gameData w) <= petEnergy (gameData (petPet now w)))%Q).
Proof.
  intros Hh Hcool.
  rewrite petPet_applied by (apply Z.ltb_ge; exact Hcool).
  unfold seq, saveData, updatePetDisplay. rewrite !gameData_emit.
  unfold ifte. gd_simpl. rewrite Hh.
  match goal with |- context [checkHibernation now ?x] => set (petted := x) end.
  assert (petHibernating (gameData petted) = true) as Hp by exact Hh.
  assert (petEnergy (gameData petted) = min100 (petEnergy (gameData w) + 5))
    as He by reflexivity.
  rewrite (checkHibernation_frame petEnergy) by reflexivity.
  rewrite checkHibernation_cases, Hp, He.
  assert ((petEnergy (gameData w) <= 100)%Q ->
          (petEnergy (gameData w) <= min100 (petEnergy (gameData w) + 5))%Q) as Hup.
  { intros H. unfold min100. apply Q.min_glb; lra. }
  destruct (Qleb 20 (min100 (petEnergy (gameData w) + 5))) eqn:E.
  - pose proof E as E'. apply Qleb_le in E'.
    split; [split; intros; [exact E'|reflexivity]|].
    split; [reflexivity|exact Hup].
  - pose proof E as E'. apply Qleb_gt in E'.
    rewrite Qleb_20_min100 in E. apply Qleb_gt in E. rewrite Hp.
    split; [split; intros H; [discriminate|lra]|].
    split; [intros H; lra|exact Hup].
Qed.

Lemma petPet_wakes_from_15_witness :
  petHibernating (gameData (petPet 20000 asleepAt15)) = false /\
  (petEnergy (gameData asleepAt15)
   <= petEnergy (gameData (petPet 20000 asleepAt15)))%Q.
Proof.
  split.
  - apply (petPet_wakes_from_15 20000 asleepAt15); [reflexivity|cbn; lia|].
    cbn. lra.
  - apply (petPet_wakes_from_15 20000 asleepAt15); [reflexivity|cbn; lia|].
    cbn. lra.
Defined.

(** X6: the ten-second cooldown.  After a petting that took effect at [t1],
    a petting at any [t2] less than ten seconds later does nothing at all:
    the world, sink trace included, is the one the first petting left. *)
Theorem petPet_cooldown t1 t2 w :
  10000 <= t1 - petLastPet (gameData w) ->
  t2 - t1 < 10000 ->
  petPet t2 (petPet t1 w) = petPet t1 w.
Proof.
  intros H1 H2.
  assert (petLastPet (gameData (petPet t1 w)) = t1) as Hl.
  { rewrite petPet_applied by (apply Z.ltb_ge; exact H1).
    unfold seq, saveData, updatePetDisplay. rewrite !gameData_emit.
    rewrite (checkHibernation_frame petLastPet) by reflexivity.
    unfold ifte. gd_simpl. destruct (petHibernating (gameData w)); reflexivity. }
  unfold petPet at 1. cbv zeta. rewrite Hl.
  destruct (Z.ltb_spec (t2 - t1) 10000); [reflexivity|lia].
Qed.

Lemma petPet_cooldown_witness :
  petPet 25000 (petPet 20000 staleGame) = petPet 20000 staleGame.
Proof.
  apply (petPet_cooldown 20000 25000 staleGame); cbn; lia.
Defined.

(** ** Feeding and boosting *)

Lemma min100_min100 v a b :
  (0 <= b)%Q -> (min100 (min100 (v + a) + b) == min100 (v + (a + b)))%Q.
Proof.
  intros Hb. unfold min100.
  destruct (Q.min_spec 100 (v + a)) as [[H1 E1]|[H1 E1]]; rewrite E1;
    destruct (Q.min_spec 100 (v + (a + b))) as [[H2 E2]|[H2 E2]]; rewrite E2.
  - apply Q.min_l. lra.
  - lra.
  - apply Q.min_l. lra.
  - rewrite Q.min_r by lra. lra.
Qed.

(** X7: the reward of a completed task, [feedPet] then [boostPetEnergy],
    moves every stat in the pet's favour.  With the stats in [0,100], hunger
    does not rise, energy and happiness do not fall and end at 25 and 15 at
    least; a hunger of at most 20 ends at 0, an energy of at least 75 and a
    happiness of at least 85 end at 100. *)
Theorem feed_then_boost w :
  statsInRange (gameData w) ->
  let g := gameData w in
  let g' := gameData (boostPetEnergy (feedPet w)) in
  (petHunger g' <= petHunger g)%Q /\
  (petEnergy g <= petEnergy g')%Q /\
  (petHappiness g <= petHappiness g')%Q /\
  (25 <= petEnergy g')%Q /\
  (15 <= petHappiness g')%Q /\
  ((petHunger g <= 20)%Q -> (petHunger g' == 0)%Q) /\
  ((75 <= petEnergy g)%Q -> (petEnergy g' == 100)%Q) /\
  ((85 <= petHappiness g)%Q -> (petHappiness g' == 100)%Q).
Proof.
  intros ([Hh0 Hh1] & [He0 He1] & [Hu0 Hu1]). cbv zeta.
  unfold boostPetEnergy, feedPet, seq. gd_simpl.
  rewrite !min100_min100 by lra. unfold min100, max0.
  destruct (Q.min_spec 100 (petEnergy (gameData w) + (10 + 15))) as [[A1 ->]|[A1 ->]];
    destruct (Q.min_spec 100 (petHappiness (gameData w) + (5 + 10))) as [[A2 ->]|[A2 ->]];
    destruct (Q.max_spec 0 (petHunger (gameData w) - 20)) as [[A3 ->]|[A3 ->]];
    repeat split; intros; lra.
Qed.

Lemma feed_then_boost_witness :
  (25 <= petEnergy (gameData (boostPetEnergy (feedPet tiredGame))))%Q.
Proof.
  apply (feed_then_boost tiredGame).
  unfold statsInRange, inRange. cbn. repeat split; lra.
Defined.

(** ** The decay tick *)

Lemma updatePetNeeds_applied now w :
  Qleb 1 (minutesSinceLastUpdate now (gameData w)) = true ->
  updatePetNeeds now w =
    (decayStats (minutesSinceLastUpdate now (gameData w) / 60) >>>
     update (set_petLastUpdate now) >>>
     checkHibernation now >>>
     updatePetDisplay >>>
     saveData) w.
Proof. intros E. unfold updatePetNeeds. cbv zeta. now rewrite E. Qed.

Lemma updatePetNeeds_skipped now w :
  Qleb 1 (minutesSinceLastUpdate now (gameData w)) = false ->
  updatePetNeeds now w = w.
Proof. intros E. unfold updatePetNeeds. cbv zeta. now rewrite E. Qed.

(** Elapsed minutes against the one-minute threshold, in milliseconds. *)
Lemma elapsed_minutes d :
  Qleb 1 (inject_Z d / 60000) = true <-> 60000 <= d.
Proof.
  rewrite Qleb_le. split.
  - intros H. apply (Qmult_le_compat_r _ _ 60000) in H; [|lra].
    rewrite Qmult_1_l in H.
    assert (inject_Z d / 60000 * 60000 == inject_Z d)%Q as E by (field; lra).
    rewrite E in H. change 60000%Q with (inject_Z 60000) in H.
    now rewrite Zle_Qle.
  - intros H. apply Qle_shift_div_l; [reflexivity|].
    rewrite Qmult_1_l. change 60000%Q with (inject_Z 60000).
    now rewrite <- Zle_Qle.
Qed.

Lemma tick_applies now g :
  petLastUpdate g <> 0 ->
  (Qleb 1 (minutesSinceLastUpdate now g) = true <-> 60000 <= now - petLastUpdate g).
Proof.
  intros H. unfold minutesSinceLastUpdate.
  destruct (Z.eqb_spec (petLastUpdate g) 0); [contradiction|].
  apply elapsed_minutes.
Qed.

(** X8: a stored [petLastUpdate] of 0 is falsy and is replaced by the current
    time before the elapsed time is computed, so the elapsed time is always 0:
    the decay never applies, at any later time, and the stamp is never
    repaired. *)
Theorem updatePetNeeds_zero_stamp now w :
  petLastUpdate (gameData w) = 0 ->
  updatePetNeeds now w = w.
Proof.
  intros H. apply updatePetNeeds_skipped.
  unfold minutesSinceLastUpdate. rewrite H. cbn [Z.eqb].
  rewrite Z.sub_diag. reflexivity.
Qed.

Lemma updatePetNeeds_zero_stamp_witness :
  updatePetNeeds 864001000 (freshGame 0) = freshGame 0.
Proof.
  apply (updatePetNeeds_zero_stamp 864001000 (freshGame 0)). reflexivity.
Defined.

(** X9: the one-minute rate limit.  After a tick that applied at [t1], a call
    at any [t2] less than a minute later (an earlier clock value included)
    does nothing at all. *)
Theorem updatePetNeeds_rate_limit t1 t2 w :
  petLastUpdate (gameData w) <> 0 ->
  60000 <= t1 - petLastUpdate (gameData w) ->
  t2 - t1 < 60000 ->
  updatePetNeeds t2 (updatePetNeeds t1 w) = updatePetNeeds t1 w.
Proof.
  intros Hnz H1 H2.
  assert (petLastUpdate (gameData (updatePetNeeds t1 w)) = t1) as Hs.
  { apply updatePetNeeds_stamps. now apply tick_applies. }
  apply updatePetNeeds_skipped.
  unfold minutesSinceLastUpdate. rewrite Hs.
  destruct (t1 =? 0).
  - rewrite Z.sub_diag. reflexivity.
  - destruct (Qleb 1 (inject_Z (t2 - t1) / 60000)) eqn:E; [|reflexivity].
    apply elapsed_minutes in E. lia.
Qed.

Lemma updatePetNeeds_rate_limit_witness :
  updatePetNeeds 90000 (updatePetNeeds 70000 staleGame)
  = updatePetNeeds 70000 staleGame.
Proof.
  apply (updatePetNeeds_rate_limit 70000 90000 staleGame); cbn; lia.
Defined.

Lemma max0_le v d : (0 <= v)%Q -> (0 <= d)%Q -> (max0 (v - d) <= v)%Q.
Proof.
  intros Hv Hd. unfold max0.
  destruct (Q.max_spec 0 (v - d)) as [[H E]|[H E]]; rewrite E; lra.
Qed.

Lemma min100_ge v d : (v <= 100)%Q -> (0 <= d)%Q -> (v <= min100 (v + d))%Q.
Proof.
  intros Hv Hd. unfold min100.
  destruct (Q.min_spec 100 (v + d)) as [[H E]|[H E]]; rewrite E; lra.
Qed.

Lemma max0_nonneg v : (0 <= max0 v)%Q.
Proof. unfold max0. apply Q.le_max_l. Qed.

(** The stats right after the decay arithmetic, before the hibernation
    check. *)
Lemma decayStats_fields m w :
  let g := gameData w in
  let g' := gameData (decayStats m w) in
  petHunger g' = min100 (petHunger g + 20 * m) /\
  petEnergy g' = max0 (petEnergy g - (if petHibernating g then 5 else 10) * m) /\
  petHibernating g' = petHibernating g /\
  petHappiness g' =
    if petHibernating g then max0 (petHappiness g - 15 * m)
    else if Qltb 70 (min100 (petHunger g + 20 * m))
         then max0 (max0 (petHappiness g - 8 * m) - 5 * m)
         else max0 (petHappiness g - 8 * m).
Proof.
  cbv zeta. unfold decayStats, when, ifte, seq.
  destruct (petHibernating (gameData w)) eqn:Hh; gd_simpl.
  - repeat split; auto.
  - destruct (Qltb 70 (min100 (petHunger (gameData w) + 20 * m))); gd_simpl;
      repeat split; auto.
Qed.

(** X10: with the stats in [0,100], a decay tick never raises energy and
    never lowers hunger; for an awake pet it never raises happiness either
    (a tick that wakes a pet adds the wake-up bonus). *)
Theorem updatePetNeeds_direction now w :
  statsInRange (gameData w) ->
  let g := gameData w in
  let g' := gameData (updatePetNeeds now w) in
  (petEnergy g' <= petEnergy g)%Q /\
  (petHunger g <= petHunger g')%Q /\
  (petHibernating g = false -> (petHappiness g' <= petHappiness g)%Q).
Proof.
  intros ([Hh0 Hh1] & [He0 He1] & [Hu0 Hu1]). cbv zeta.
  destruct (Qleb 1 (minutesSinceLastUpdate now (gameData w))) eqn:E.
  2:{ rewrite updatePetNeeds_skipped by exact E. repeat split; intros; lra. }
  rewrite updatePetNeeds_applied by exact E.
  pose proof (minutes_multiplier_nonneg _ _ E) as Hm.
  set (m := (minutesSinceLastUpdate now (gameData w) / 60)%Q) in *.
  unfold seq, saveData, updatePetDisplay. rewrite !gameData_emit.
  rewrite (checkHibernation_frame petEnergy), (checkHibernation_frame petHunger)
    by reflexivity.
  destruct (decayStats_fields m w) as (Fu & Fe & Fh & Fa). cbv zeta in *.
  split; [|split].
  - gd_simpl. rewrite Fe. apply max0_le; [exact He0|].
    destruct (petHibernating (gameData w)); lra.
  - gd_simpl. rewrite Fu. apply min100_ge; [exact Hu1|lra].
  - intros Hawake. rewrite Hawake in Fa, Fh.
    assert (petHappiness (gameData (decayStats m w)) <= petHappiness (gameData w))%Q
      as Hdec.
    { rewrite Fa.
      destruct (Qltb 70 _).
      - eapply Qle_trans; [apply max0_le; [apply max0_nonneg|lra]|].
        apply max0_le; [exact Hh0|lra].
      - apply max0_le; [exact Hh0|lra]. }
    assert (0 <= petHappiness (gameData (decayStats m w)))%Q as Hnn.
    { rewrite Fa. destruct (Qltb 70 _); apply max0_nonneg. }
    rewrite checkHibernation_cases. gd_simpl. rewrite Fh.
    destruct (Qleb (petEnergy (gameData (decayStats m w))) 0) eqn:E0.
    + rewrite (thresholds_disjoint _ E0).
      unfold enterHibernation, seq. gd_simpl.
      eapply Qle_trans; [apply max0_le; [exact Hnn|lra]|exact Hdec].
    + gd_simpl. exact Hdec.
Qed.

Lemma updatePetNeeds_direction_witness :
  (petEnergy (gameData (updatePetNeeds 864001000 staleGame))
   <= petEnergy (gameData staleGame))%Q.
Proof.
  assert (statsInRange (gameData staleGame)) as H
    by (unfold statsInRange, inRange; cbn; repeat split; lra).
  exact (proj1 (updatePetNeeds_direction 864001000 staleGame H)).
Defined.

(** X11: an awake pet with stats in [0,100] that gets no tick for ten hours
    or more is found exhausted by the next tick: energy 0 and hibernating. *)
Theorem updatePetNeeds_ten_hours now w :
  statsInRange (gameData w) ->
  petHibernating (gameData w) = false ->
  petLastUpdate (gameData w) <> 0 ->
  36000000 <= now - petLastUpdate (gameData w) ->
  (petEnergy (gameData (updatePetNeeds now w)) == 0)%Q /\
  petHibernating (gameData (updatePetNeeds now w)) = true.
Proof.
  intros (_ & [He0 He1] & _) Hawake Hnz Hgap.
  assert (Qleb 1 (minutesSinceLastUpdate now (gameData w)) = true) as E
    by (apply tick_applies; [exact Hnz|lia]).
  rewrite updatePetNeeds_applied by exact E.
  assert (10 <= minutesSinceLastUpdate now (gameData w) / 60)%Q as Hm.
  { unfold minutesSinceLastUpdate.
    destruct (Z.eqb_spec (petLastUpdate (gameData w)) 0); [contradiction|].
    apply Qle_shift_div_l; [reflexivity|].
    apply Qle_shift_div_l; [reflexivity|].
    change (10 * 60 * 60000)%Q with (inject_Z 36000000).
    now rewrite <- Zle_Qle. }
  set (m := (minutesSinceLastUpdate now (gameData w) / 60)%Q) in *.
  unfold seq, saveData, updatePetDisplay. rewrite !gameData_emit.
  destruct (decayStats_fields m w) as (_ & Fe & Fh & _). cbv zeta in *.
  rewrite Hawake in Fe, Fh.
  assert (petEnergy (gameData (decayStats m w)) == 0)%Q as Hz.
  { rewrite Fe. unfold max0. apply Q.max_l. lra. }
  split.
  - rewrite (checkHibernation_frame petEnergy) by reflexivity. gd_simpl. exact Hz.
  - rewrite checkHibernation_cases. gd_simpl. rewrite Fh.
    assert (Qleb (petEnergy (gameData (decayStats m w))) 0 = true) as E0
      by (apply Qleb_le; rewrite Hz; lra).
    rewrite E0, (thresholds_disjoint _ E0). reflexivity.
Qed.

Lemma updatePetNeeds_ten_hours_witness :
  (petEnergy (gameData (updatePetNeeds 864001000 staleGame)) == 0)%Q /\
  petHibernating (gameData (updatePetNeeds 864001000 staleGame)) = true.
Proof.
  apply (updatePetNeeds_ten_hours 864001000 staleGame).
  - unfold statsInRange, inRange. cbn. repeat split; lra.
  - reflexivity.
  - cbn. lia.
  - cbn. lia.
Defined.

(** ** The achievement check *)

Lemma checkAchievement_done a w :
  rowDone (gameData w) a -> checkAchievement a w = w.
Proof.
  intros [H|H]; unfold checkAchievement; rewrite H; [reflexivity|].
  destruct (isUnlocked _ _); reflexivity.
Qed.

Lemma checkAchievementList_done l w :
  (forall a, In a l -> rowDone (gameData w) a) -> checkAchievementList l w = w.
Proof.
  induction l as [|a l IH]; intros H; [reflexivity|].
  unfold checkAchievementList in *. cbn [fold_left].
  rewrite checkAchievement_done by (apply H; now left).
  apply IH. intros b Hb. apply H. now right.
Qed.

Lemma requirementMet_checkAchievementList a l w :
  requirementMet a (gameData (checkAchievementList l w))
  = requirementMet a (gameData w).
Proof.
  apply requirementMet_ext.
  - apply (checkAchievementList_frame streak); reflexivity.
  - apply (checkAchievementList_frame level); reflexivity.
  - apply (checkAchievementList_frame totalCompleted); reflexivity.
Qed.

Lemma checkAchievementList_leaves_done l w a :
  In a l -> rowDone (gameData (checkAchievementList l w)) a.
Proof.
  intros Hin. unfold rowDone.
  rewrite requirementMet_checkAchievementList, isUnlocked_checkAchievementList.
  destruct (requirementMet a (gameData w)) eqn:Hm; [left|now right].
  apply orb_true_iff. right. apply existsb_exists.
  exists a. split; [exact Hin|]. now rewrite String.eqb_refl, Hm.
Qed.

(** X12: the achievement check is idempotent.  A second check in a row
    returns the world of the first, sink trace included: no achievement is
    celebrated twice and the happiness bonus is not granted again. *)
Theorem checkAchievements_idempotent w :
  checkAchievements (checkAchievements w) = checkAchievements w.
Proof.
  unfold checkAchievements at 1. apply checkAchievementList_done.
  intros a Hin. now apply checkAchievementList_leaves_done.
Qed.

(** X13: for every row of the achievement table, the row is unlocked after
    the check exactly when it was unlocked before or its own requirement is
    met; no row unlocks or blocks another. *)
Theorem checkAchievements_row a w :
  In a achievementTable ->
  isUnlocked (Achievement.id a) (gameData (checkAchievements w))
  = isUnlocked (Achievement.id a) (gameData w) || requirementMet a (gameData w).
Proof.
  intros Hin. unfold checkAchievements.
  rewrite isUnlocked_checkAchievementList. f_equal.
  cbn in Hin.
  repeat (destruct Hin as [<-|Hin];
          [cbn; rewrite ?orb_false_r; reflexivity|]).
  contradiction.
Qed.

Lemma checkAchievements_row_witness :
  isUnlocked "pet_lover" (gameData (checkAchievements tenDone))
  = isUnlocked "pet_lover" (gameData tenDone)
    || requirementMet petLover (gameData tenDone).
Proof.
  apply (checkAchievements_row petLover tenDone). cbn. tauto.
Defined.

(** ** XP bookkeeping *)

(** X14: with a level of at least 1, non-negative XP and a non-negative
    award, [addXP] leaves the XP non-negative and the level at least 1, and
    the level rises by at most one. *)
Theorem addXP_keeps_xp_nonnegative amount w :
  1 <= level (gameData w) ->
  0 <= xp (gameData w) ->
  0 <= amount ->
  0 <= xp (gameData (addXP amount w)) /\
  level (gameData w) <= level (gameData (addXP amount w)) <= level (gameData w) + 1.
Proof.
  intros Hl Hx Ha.
  destruct (addXP_progress amount w) as [_ Hc]. cbv zeta in Hc.
  destruct (Z.leb_spec (getXPForLevel (level (gameData w)))
              (xp (gameData w) + amount)) as [Hle|Hlt];
    destruct Hc as [-> ->]; lia.
Qed.

Lemma addXP_keeps_xp_nonnegative_witness :
  0 <= xp (gameData (addXP 20 (freshGame 90))).
Proof.
  apply (addXP_keeps_xp_nonnegative 20 (freshGame 90)); cbn; lia.
Defined.

(** X15: when the XP is below the amount required for the level and the award
    does not exceed the amount required for the next level, the XP is again
    below the required amount after [addXP]: the single level-up absorbs the
    overflow.  (A larger award can leave an overflow, see
    [addXP_no_cascade].) *)
Theorem addXP_absorbs_overflow amount w :
  xp (gameData w) < getXPForLevel (level (gameData w)) ->
  amount <= getXPForLevel (level (gameData w) + 1) ->
  xp (gameData (addXP amount w))
  < getXPForLevel (level (gameData (addXP amount w))).
Proof.
  intros Hx Ha.
  destruct (addXP_progress amount w) as [_ Hc]. cbv zeta in Hc.
  unfold getXPForLevel in *.
  destruct (Z.leb_spec (100 + (level (gameData w) - 1) * 50)
              (xp (gameData w) + amount)) as [Hle|Hlt];
    destruct Hc as [-> ->]; lia.
Qed.

Lemma addXP_absorbs_overflow_witness :
  xp (gameData (addXP 50 (freshGame 90)))
  < getXPForLevel (level (gameData (addXP 50 (freshGame 90)))).
Proof.
  apply (addXP_absorbs_overflow 50 (freshGame 90));
    unfold getXPForLevel; cbn; lia.
Defined.

(** ** More on the streak *)



(** X17: when the stored completion date lies in the future (the clock was
    set back), [updateStreak] treats it as a gap: the streak restarts at 1 and
    the stored date moves back to today. *)
Theorem updateStreak_future_date zone now w lastDay :
  lastCompletedDate (gameData w) = Some lastDay ->
  toDateString zone now < lastDay ->
  streak (gameData (updateStreak zone now w)) = 1 /\
  lastCompletedDate (gameData (updateStreak zone now w)) = Some (toDateString zone now).
Proof.
  intros Hl Hf.
  destruct (updateStreak_fields zone now w) as [Hd Hs]. cbv zeta in *.
  rewrite Hl in Hs. rewrite Hs, Hd. split; [|reflexivity].
  pose proof (yesterday_not_later zone now) as Hy.
  destruct (Z.eqb_spec lastDay (toDateString zone (now - 86400000))); [lia|].
  destruct (Z.eqb_spec lastDay (toDateString zone now)); [lia|reflexivity].
Qed.

Lemma updateStreak_future_date_witness :
  streak (gameData (updateStreak utc (noonD - 86400000) (updateStreak utc noonD staleGame))) = 1.
Proof.
  apply (updateStreak_future_date utc (noonD - 86400000)
           (updateStreak utc noonD staleGame) 20000); [reflexivity|].
  vm_compute. reflexivity.
Defined.



(** ** Write sets *)

(** A reading [f] of the game data that no assignment of a procedure's write
    set can change is not changed by the procedure. *)
Section Frames.
Context {A : Type} (f : GameData -> A).
Hypothesis f_level : forall v g, f (set_level v g) = f g.
Hypothesis f_xp : forall v g, f (set_xp v g) = f g.
Hypothesis f_totalXP : forall v g, f (set_totalXP v g) = f g.
Hypothesis f_streak : forall v g, f (set_streak v g) = f g.
Hypothesis f_lastCompletedDate : forall v g, f (set_lastCompletedDate v g) = f g.
Hypothesis f_achievements : forall v g, f (set_achievements v g) = f g.
Hypothesis f_petHappiness : forall v g, f (set_petHappiness v g) = f g.
Hypothesis f_petEnergy : forall v g, f (set_petEnergy v g) = f g.
Hypothesis f_petHunger : forall v g, f (set_petHunger v g) = f g.
Hypothesis f_petStage : forall v g, f (set_petStage v g) = f g.

Lemma feedPet_frame w : f (gameData (feedPet w)) = f (gameData w).
Proof.
  unfold feedPet, seq. gd_simpl.
  now rewrite f_petHappiness, f_petEnergy, f_petHunger.
Qed.

Lemma boostPetEnergy_frame w : f (gameData (boostPetEnergy w)) = f (gameData w).
Proof.
  unfold boostPetEnergy, seq. gd_simpl.
  now rewrite f_petHappiness, f_petEnergy.
Qed.

Lemma levelUp_frame w : f (gameData (levelUp w)) = f (gameData w).
Proof.
  unfold levelUp, seq, updatePetDisplay.
  rewrite gameData_emit, (checkAchievements_frame f) by assumption.
  gd_simpl. rewrite f_petEnergy, f_petHappiness.
  destruct (_ =? 0).
  - rewrite (checkPetEvolution_frame f) by assumption.
    gd_simpl. now rewrite f_level, f_xp.
  - gd_simpl. now rewrite f_level, f_xp.
Qed.

Lemma addXP_frame amount w : f (gameData (addXP amount w)) = f (gameData w).
Proof.
  unfold addXP, seq. gd_simpl.
  destruct (_ <=? _).
  - rewrite levelUp_frame. gd_simpl. now rewrite f_totalXP, f_xp.
  - gd_simpl. now rewrite f_totalXP, f_xp.
Qed.

Lemma updateStreak_frame zone now w :
  f (gameData (updateStreak zone now w)) = f (gameData w).
Proof.
  unfold updateStreak. cbv zeta. unfold seq.
  rewrite (checkAchievements_frame f) by assumption.
  gd_simpl. rewrite f_lastCompletedDate.
  destruct (lastCompletedDate (gameData w)) as [lastDay|].
  - destruct (lastDay =? _); [gd_simpl; now rewrite f_streak|].
    destruct (negb _); gd_simpl; [now rewrite f_streak|reflexivity].
  - gd_simpl. now rewrite f_streak.
Qed.

End Frames.

(** ** Procedures that leave the task list alone *)

Lemma keepsTasks_skip : KeepsTasks skip.
Proof. intros w. reflexivity. Qed.

Lemma keepsTasks_seq p q : KeepsTasks p -> KeepsTasks q -> KeepsTasks (p >>> q).
Proof. intros Hp Hq w. unfold seq. now rewrite Hq, Hp. Qed.

Lemma keepsTasks_emit e : KeepsTasks (emit e).
Proof. intros w. reflexivity. Qed.

Lemma keepsTasks_update u : KeepsTasks (update u).
Proof. intros w. reflexivity. Qed.

Lemma keepsTasks_ifte c p q : KeepsTasks p -> KeepsTasks q -> KeepsTasks (ifte c p q).
Proof. intros Hp Hq w. unfold ifte. destruct (c (gameData w)); auto. Qed.

Lemma keepsTasks_when c p : KeepsTasks p -> KeepsTasks (when c p).
Proof. intros Hp. apply keepsTasks_ifte; [exact Hp|apply keepsTasks_skip]. Qed.

Lemma keepsTasks_checkAchievements : KeepsTasks checkAchievements.
Proof. intros w. apply checkAchievementList_tasks. Qed.

#[local] Hint Resolve keepsTasks_skip keepsTasks_seq keepsTasks_emit
  keepsTasks_update keepsTasks_ifte keepsTasks_when
  keepsTasks_checkAchievements : tasks.
#[local] Hint Extern 1 (KeepsTasks (showCelebration _)) => apply keepsTasks_emit : tasks.
#[local] Hint Extern 1 (KeepsTasks (playSound _)) => apply keepsTasks_emit : tasks.
#[local] Hint Extern 1 (KeepsTasks (setTimeout _ _)) => apply keepsTasks_emit : tasks.
#[local] Hint Extern 1 (KeepsTasks (showFloatingXP _)) => apply keepsTasks_emit : tasks.
#[local] Hint Extern 1 (KeepsTasks updatePetDisplay) => apply keepsTasks_emit : tasks.
#[local] Hint Extern 1 (KeepsTasks updatePlayerStats) => apply keepsTasks_emit : tasks.
#[local] Hint Extern 1 (KeepsTasks saveData) => apply keepsTasks_emit : tasks.
#[local] Hint Extern 1 (KeepsTasks createHearts) => apply keepsTasks_emit : tasks.
#[local] Hint Extern 1 (KeepsTasks createConfetti) => apply keepsTasks_emit : tasks.

Lemma keepsTasks_checkPetEvolution : KeepsTasks checkPetEvolution.
Proof.
  intros w. unfold checkPetEvolution. destruct (_ <? _); reflexivity.
Qed.

Lemma keepsTasks_checkHibernation now : KeepsTasks (checkHibernation now).
Proof.
  unfold checkHibernation, enterHibernation, wakeFromHibernation.
  auto 30 with tasks.
Qed.

#[local] Hint Resolve keepsTasks_checkPetEvolution keepsTasks_checkHibernation : tasks.

Lemma keepsTasks_levelUp : KeepsTasks levelUp.
Proof.
  intros w. unfold levelUp, seq, updatePetDisplay.
  rewrite tasks_emit, keepsTasks_checkAchievements. gd_simpl.
  destruct (_ =? 0); [rewrite keepsTasks_checkPetEvolution|]; reflexivity.
Qed.

Lemma keepsTasks_addXP amount : KeepsTasks (addXP amount).
Proof.
  intros w. unfold addXP, seq. gd_simpl.
  destruct (_ <=? _); [rewrite keepsTasks_levelUp|]; reflexivity.
Qed.

Lemma keepsTasks_updateStreak zone now : KeepsTasks (updateStreak zone now).
Proof.
  intros w. unfold updateStreak. cbv zeta. unfold seq.
  rewrite keepsTasks_checkAchievements. gd_simpl.
  destruct (lastCompletedDate (gameData w)) as [lastDay|]; [|reflexivity].
  destruct (lastDay =? _); [reflexivity|]. destruct (negb _); reflexivity.
Qed.

Lemma keepsTasks_feedPet : KeepsTasks feedPet.
Proof. unfold feedPet. auto 30 with tasks. Qed.

Lemma keepsTasks_boostPetEnergy : KeepsTasks boostPetEnergy.
Proof. unfold boostPetEnergy. auto 30 with tasks. Qed.

Lemma keepsTasks_petPet now : KeepsTasks (petPet now).
Proof.
  intros w. unfold petPet. cbv zeta.
  destruct (_ <? 10000); [reflexivity|].
  apply (fun K : KeepsTasks _ => K w). auto 30 with tasks.
Qed.

Lemma keepsTasks_updatePetNeeds now : KeepsTasks (updatePetNeeds now).
Proof.
  intros w. unfold updatePetNeeds. cbv zeta.
  destruct (Qleb 1 _); [|reflexivity].
  apply (fun K : KeepsTasks _ => K w). unfold decayStats. auto 30 with tasks.
Qed.

(** ** Completing a task *)

Lemma findTask_markCompleted id l k :
  findTask id l = Some k ->
  findTask id (markCompleted id l) = Some (Task.complete k).
Proof.
  unfold findTask. induction l as [|x l IH]; cbn; [discriminate|].
  destruct (Task.id x =? id) eqn:E; cbn.
  - intros [= ->]. now rewrite E.
  - rewrite E. exact IH.
Qed.

Lemma findTask_markCompleted_other j id l :
  j <> id -> findTask j (markCompleted id l) = findTask j l.
Proof.
  intros Hne. unfold findTask. induction l as [|x l IH]; cbn; [reflexivity|].
  destruct (Z.eqb_spec (Task.id x) id) as [E|E]; cbn.
  - destruct (Z.eqb_spec (Task.id x) j); [lia|reflexivity].
  - destruct (Task.id x =? j); [reflexivity|exact IH].
Qed.

Lemma length_markCompleted id l : length (markCompleted id l) = length l.
Proof.
  induction l as [|x l IH]; cbn; [reflexivity|].
  destruct (Task.id x =? id); cbn; [reflexivity|now rewrite IH].
Qed.

Lemma removeTask_markCompleted id l :
  removeTask id (markCompleted id l) = removeTask id l.
Proof.
  unfold removeTask. induction l as [|x l IH]; cbn; [reflexivity|].
  destruct (Task.id x =? id) eqn:E; cbn; rewrite E; cbn; [reflexivity|].
  now rewrite IH.
Qed.

Lemma findTask_removeTask id l : findTask id (removeTask id l) = None.
Proof.
  unfold findTask, removeTask. induction l as [|x l IH]; cbn; [reflexivity|].
  destruct (Task.id x =? id) eqn:E; cbn; [exact IH|]. now rewrite E.
Qed.

Lemma findTask_removeTask_other j id l :
  j <> id -> findTask j (removeTask id l) = findTask j l.
Proof.
  intros Hne. unfold findTask, removeTask.
  induction l as [|x l IH]; cbn; [reflexivity|].
  destruct (Z.eqb_spec (Task.id x) id) as [E|E]; cbn.
  - destruct (Z.eqb_spec (Task.id x) j); [lia|exact IH].
  - destruct (Task.id x =? j); [reflexivity|exact IH].
Qed.

Lemma removeTask_idempotent id l :
  removeTask id (removeTask id l) = removeTask id l.
Proof.
  apply removeTask_absent, findTask_removeTask.
Qed.

Lemma toggleTask_goes_through id zone now w k :
  petHibernating (gameData w) = false ->
  findTask id (tasks w) = Some k ->
  Task.completed k = false ->
  toggleTask id zone now w = Returned (completionBody id zone now k w).
Proof.
  intros Hh Hf Hc. unfold toggleTask. cbv zeta. now rewrite Hh, Hf, Hc.
Qed.

Lemma completionBody_tasks id zone now k w :
  tasks (completionBody id zone now k w) = markCompleted id (tasks w).
Proof.
  unfold completionBody, seq. unfold_sinks. rewrite !tasks_emit.
  rewrite keepsTasks_checkHibernation, keepsTasks_boostPetEnergy,
    keepsTasks_feedPet, keepsTasks_checkAchievements,
    keepsTasks_updateStreak, keepsTasks_addXP.
  reflexivity.
Qed.

Lemma completionBody_counters id zone now k w :
  let g := gameData w in
  let g' := gameData (completionBody id zone now k w) in
  totalCompleted g' = totalCompleted g + 1 /\
  totalXP g' = totalXP g + Task.xp k /\
  lastCompletedDate g' = Some (toDateString zone now).
Proof.
  cbv zeta. unfold completionBody, seq. unfold_sinks. rewrite !gameData_emit.
  split; [|split].
  - rewrite (checkHibernation_frame totalCompleted),
      (boostPetEnergy_frame totalCompleted), (feedPet_frame totalCompleted),
      (checkAchievements_frame totalCompleted),
      (updateStreak_frame totalCompleted), (addXP_frame totalCompleted)
      by reflexivity.
    reflexivity.
  - rewrite (checkHibernation_frame totalXP),
      (boostPetEnergy_frame totalXP), (feedPet_frame totalXP),
      (checkAchievements_frame totalXP), (updateStreak_frame totalXP)
      by reflexivity.
    match goal with |- context [addXP ?a ?x] =>
      destruct (addXP_progress a x) as [Ht _]; cbv zeta in Ht; rewrite Ht end.
    reflexivity.
  - rewrite (checkHibernation_frame lastCompletedDate),
      (boostPetEnergy_frame lastCompletedDate), (feedPet_frame lastCompletedDate),
      (checkAchievements_frame lastCompletedDate) by reflexivity.
    match goal with |- context [updateStreak zone now ?x] =>
      destruct (updateStreak_fields zone now x) as [Hd _]; cbv zeta in Hd; rewrite Hd end.
    reflexivity.
Qed.

(** X18: completing an open task with the pet awake.  [toggleTask] returns;
    the task (the first with that id) is marked completed in place, the list
    keeps its length and every task with another id; the completed counter
    rises by one, the lifetime XP by the task's XP, the completion date is
    today; and the last two sink calls are the 500 ms removal timer and the
    save. *)
Theorem toggleTask_rewards id zone now w k :
  petHibernating (gameData w) = false ->
  findTask id (tasks w) = Some k ->
  Task.completed k = false ->
  exists w',
    toggleTask id zone now w = Returned w' /\
    findTask id (tasks w') = Some (Task.complete k) /\
    length (tasks w') = length (tasks w) /\
    (forall j, j <> id -> findTask j (tasks w') = findTask j (tasks w)) /\
    totalCompleted (gameData w') = totalCompleted (gameData w) + 1 /\
    totalXP (gameData w') = totalXP (gameData w) + Task.xp k /\
    lastCompletedDate (gameData w') = Some (toDateString zone now) /\
    exists before,
      trace w' = before ++ [SetTimeout (CbRemoveTask id) 500; SaveData].
Proof.
  intros Hh Hf Hc. exists (completionBody id zone now k w).
  destruct (completionBody_counters id zone now k w) as (H1 & H2 & H3).
  cbv zeta in *. rewrite completionBody_tasks.
  split; [now apply toggleTask_goes_through|].
  split; [now apply findTask_markCompleted|].
  split; [apply length_markCompleted|].
  split; [intros j Hj; now apply findTask_markCompleted_other|].
  split; [exact H1|]. split; [exact H2|]. split; [exact H3|].
  eexists. unfold completionBody. unfold seq at 1 2. unfold_sinks. cbn [emit trace].
  rewrite <- app_assoc. reflexivity.
Qed.

Lemma toggleTask_rewards_witness :
  exists w',
    toggleTask 7 utc noonD openGame = Returned w' /\
    findTask 7 (tasks w') = Some (Task.complete reportTask) /\
    length (tasks w') = length (tasks openGame) /\
    (forall j, j <> 7 -> findTask j (tasks w') = findTask j (tasks openGame)) /\
    totalCompleted (gameData w') = totalCompleted (gameData openGame) + 1 /\
    totalXP (gameData w') = totalXP (gameData openGame) + Task.xp reportTask /\
    lastCompletedDate (gameData w') = Some (toDateString utc noonD) /\
    exists before,
      trace w' = before ++ [SetTimeout (CbRemoveTask 7) 500; SaveData].
Proof.
  apply (toggleTask_rewards 7 utc noonD openGame reportTask); reflexivity.
Defined.

Lemma min100_floor v d :
  (0 <= v)%Q -> (d <= 100)%Q -> (d <= min100 (v + d))%Q.
Proof.
  intros Hv Hd. unfold min100. apply Q.min_glb; lra.
Qed.

(** The pet after the rewards of a completion, before the final hibernation
    check. *)
Lemma rewarded_pet w :
  statsInRange (gameData w) ->
  (25 <= petEnergy (gameData (boostPetEnergy (feedPet w))))%Q /\
  petHibernating (gameData (boostPetEnergy (feedPet w)))
  = petHibernating (gameData w).
Proof.
  intros (_ & [He0 He1] & _). split.
  - unfold boostPetEnergy, feedPet, seq. gd_simpl.
    rewrite min100_min100 by lra.
    eapply Qle_trans; [|apply (min100_floor _ (10 + 15)); [exact He0|lra]]. lra.
  - now rewrite (boostPetEnergy_frame petHibernating),
      (feedPet_frame petHibernating) by reflexivity.
Qed.

(** X19: completing a task never sends the pet to sleep.  With the stats in
    [0,100] and the pet awake, a completion that goes through leaves the pet
    awake with at least 25 energy. *)
Theorem toggleTask_keeps_pet_awake id zone now w k :
  statsInRange (gameData w) ->
  petHibernating (gameData w) = false ->
  findTask id (tasks w) = Some k ->
  Task.completed k = false ->
  petHibernating (gameData (worldOf (toggleTask id zone now w))) = false /\
  (25 <= petEnergy (gameData (worldOf (toggleTask id zone now w))))%Q.
Proof.
  intros Hr Hh Hf Hc.
  rewrite (toggleTask_goes_through id zone now w k) by assumption. cbn [worldOf].
  unfold completionBody, seq. unfold_sinks. rewrite !gameData_emit.
  match goal with |- context [checkHibernation now (boostPetEnergy (feedPet ?x))] =>
    set (w4 := x) end.
  assert (statsInRange (gameData w4)) as Hr4.
  { subst w4. apply keeps_checkAchievements, keeps_updateStreak, keeps_addXP.
    exact Hr. }
  assert (petHibernating (gameData w4) = false) as Hh4.
  { subst w4.
    rewrite (checkAchievements_frame petHibernating),
      (updateStreak_frame petHibernating), (addXP_frame petHibernating)
      by reflexivity.
    exact Hh. }
  destruct (rewarded_pet w4 Hr4) as [He Hh5]. rewrite Hh4 in Hh5.
  rewrite settled_checkHibernation.
  - split; [exact Hh5|exact He].
  - split; intros H; [lra|congruence].
Qed.

Lemma toggleTask_keeps_pet_awake_witness :
  petHibernating (gameData (worldOf (toggleTask 7 utc noonD tiredGame))) = false /\
  (25 <= petEnergy (gameData (worldOf (toggleTask 7 utc noonD tiredGame))))%Q.
Proof.
  apply (toggleTask_keeps_pet_awake 7 utc noonD tiredGame reportTask);
    try reflexivity.
  unfold statsInRange, inRange. cbn. repeat split; lra.
Defined.

(** X20: no double reward.  After a completion that went through, a second
    [toggleTask] on the same id (a second click before the removal timer
    fires) returns with the game data and the task list unchanged, whether
    or not the pet is awake by then. *)
Theorem toggleTask_twice id zone now now' w k :
  petHibernating (gameData w) = false ->
  findTask id (tasks w) = Some k ->
  Task.completed k = false ->
  exists w' w'',
    toggleTask id zone now w = Returned w' /\
    toggleTask id zone now' w' = Returned w'' /\
    gameData w'' = gameData w' /\
    tasks w'' = tasks w'.
Proof.
  intros Hh Hf Hc.
  exists (completionBody id zone now k w).
  assert (findTask id (tasks (completionBody id zone now k w)) = Some (Task.complete k))
    as Hf' by (rewrite completionBody_tasks; now apply findTask_markCompleted).
  unfold toggleTask at 2. cbv zeta. rewrite Hf'. cbn [Task.complete Task.completed negb].
  destruct (petHibernating (gameData (completionBody id zone now k w)));
    eexists; (split; [now apply toggleTask_goes_through|]);
    (split; [reflexivity|]); unfold seq; unfold_sinks;
    rewrite ?gameData_emit, ?tasks_emit; split; reflexivity.
Qed.

Lemma toggleTask_twice_witness :
  exists w' w'',
    toggleTask 7 utc noonD openGame = Returned w' /\
    toggleTask 7 utc (noonD + 100) w' = Returned w'' /\
    gameData w'' = gameData w' /\
    tasks w'' = tasks w'.
Proof.
  apply (toggleTask_twice 7 utc noonD (noonD + 100) openGame reportTask);
    reflexivity.
Defined.

Lemma removeCompletedTask_gameData id w :
  gameData (removeCompletedTask id w) = gameData w.
Proof. reflexivity. Qed.

(** X21: the removal timer of a completion.  When its callback runs on the
    world the completion left, the task list is the original list without
    every task of that id (tasks sharing the id go too), tasks with another
    id are found as before, and the game data is not touched. *)
Theorem removeCompletedTask_after_toggle id zone now w k :
  petHibernating (gameData w) = false ->
  findTask id (tasks w) = Some k ->
  Task.completed k = false ->
  let w' := worldOf (toggleTask id zone now w) in
  tasks (removeCompletedTask id w') = removeTask id (tasks w) /\
  findTask id (tasks (removeCompletedTask id w')) = None /\
  (forall j, j <> id ->
     findTask j (tasks (removeCompletedTask id w')) = findTask j (tasks w)) /\
  gameData (removeCompletedTask id w') = gameData w'.
Proof.
  intros Hh Hf Hc. cbv zeta.
  rewrite (toggleTask_goes_through id zone now w k) by assumption. cbn [worldOf].
  assert (tasks (removeCompletedTask id (completionBody id zone now k w))
          = removeTask id (tasks w)) as Ht.
  { unfold removeCompletedTask, seq. unfold_sinks. rewrite !tasks_emit.
    cbn [updateTasks tasks]. rewrite completionBody_tasks.
    apply removeTask_markCompleted. }
  rewrite Ht. split; [reflexivity|].
  split; [apply findTask_removeTask|].
  split; [intros j Hj; now apply findTask_removeTask_other|].
  apply removeCompletedTask_gameData.
Qed.

Lemma removeCompletedTask_after_toggle_witness :
  tasks (removeCompletedTask 7 (worldOf (toggleTask 7 utc noonD openGame)))
  = removeTask 7 (tasks openGame).
Proof.
  apply (removeCompletedTask_after_toggle 7 utc noonD openGame reportTask);
    reflexivity.
Defined.

(** ** Deleting and creating tasks *)

(** X22: [deleteTask] never touches the game data and works whether or not
    the pet hibernates.  Once confirmed, no task with the id is left, tasks
    with another id are found as before, and deleting the same id again
    leaves the list as it is. *)
Theorem deleteTask_removes id confirmed confirmed' w :
  gameData (deleteTask id confirmed w) = gameData w /\
  findTask id (tasks (deleteTask id true w)) = None /\
  (forall j, j <> id ->
     findTask j (tasks (deleteTask id true w)) = findTask j (tasks w)) /\
  tasks (deleteTask id confirmed' (deleteTask id true w))
  = tasks (deleteTask id true w) /\
  tasks (deleteTask id false w) = tasks w.
Proof.
  assert (forall v, tasks (deleteTask id true v) = removeTask id (tasks v)) as Ht
    by reflexivity.
  split; [destruct confirmed; reflexivity|].
  rewrite !Ht.
  split; [apply findTask_removeTask|].
  split; [intros j Hj; now apply findTask_removeTask_other|].
  split; [|reflexivity].
  destruct confirmed'; [|reflexivity].
  rewrite Ht, Ht. apply removeTask_idempotent.
Qed.

Lemma deleteTask_removes_witness :
  findTask 8 (tasks (deleteTask 7 true blockedGame)) = findTask 8 (tasks blockedGame).
Proof.
  apply (deleteTask_removes 7 true true blockedGame). lia.
Defined.

Lemma getXPForPriority_values priority v :
  getXPForPriority priority = Some v -> v = 10 \/ v = 25 \/ v = 50.
Proof.
  unfold getXPForPriority. destruct (isInheritedKey priority); [discriminate|].
  unfold xpValues.
  destruct (String.eqb_spec "low" priority) as [<-|H1].
  { rewrite lookup_insert_eq. cbn. intros [= <-]. auto. }
  rewrite lookup_insert_ne by exact H1.
  destruct (String.eqb_spec "medium" priority) as [<-|H2].
  { rewrite lookup_insert_eq. cbn. intros [= <-]. auto. }
  rewrite lookup_insert_ne by exact H2.
  destruct (String.eqb_spec "high" priority) as [<-|H3].
  { rewrite lookup_insert_eq. cbn. intros [= <-]. auto. }
  rewrite lookup_insert_ne by exact H3.
  rewrite lookup_empty. intros [= <-]. auto.
Qed.

(** X23: [addTask] either shows the alert and changes nothing, which happens
    exactly when the trimmed text is empty, or pushes exactly one task at the
    end of the list: not completed, carrying the trimmed text, the chosen
    priority, the current time as id and 10, 25 or 50 XP; the game data is
    not touched.  The XP is not a number only for a priority that names a
    member inherited from [Object.prototype]. *)
Theorem addTask_outcomes trim value priority now w :
  match addTask trim value priority now w with
  | AlertShown w' => w' = w /\ trim value = EmptyString
  | TaskAdded w' =>
      trim value <> EmptyString /\
      gameData w' = gameData w /\
      exists k,
        tasks w' = tasks w ++ [k] /\
        Task.id k = now /\ Task.text k = trim value /\
        Task.priority k = priority /\ Task.completed k = false /\
        (Task.xp k = 10 \/ Task.xp k = 25 \/ Task.xp k = 50)
  | NonNumericXP =>
      trim value <> EmptyString /\ isInheritedKey priority = true
  end.
Proof.
  unfold addTask. cbv zeta.
  destruct (String.eqb_spec (trim value) EmptyString) as [E|E]; [now split|].
  destruct (getXPForPriority priority) as [v|] eqn:Hx.
  - split; [exact E|]. split; [reflexivity|].
    eexists. split; [reflexivity|]. cbn.
    repeat split. now apply getXPForPriority_values in Hx.
  - split; [exact E|]. unfold getXPForPriority in Hx.
    destruct (isInheritedKey priority); [reflexivity|].
    destruct (xpValues !! priority); discriminate.
Qed.

(** The three priorities of the form give 10, 25 and 50 XP; any other name
    that is not inherited gives the default 25. *)
Example getXPForPriority_table :
  getXPForPriority "low" = Some 10 /\
  getXPForPriority "medium" = Some 25 /\
  getXPForPriority "high" = Some 50 /\
  getXPForPriority "urgent" = Some 25 /\
  getXPForPriority "constructor" = None.
Proof. vm_compute. repeat split. Qed.

(** X24: a task added at a time that no task of the list has as its id can
    be taken back: deleting the new id restores the task list. *)
Theorem addTask_then_delete trim value priority now w w' :
  findTask now (tasks w) = None ->
  addTask trim value priority now w = TaskAdded w' ->
  tasks (deleteTask now true w') = tasks w /\
  gameData (deleteTask now true w') = gameData w.
Proof.
  intros Hfresh Hadd. unfold addTask in Hadd. cbv zeta in Hadd.
  destruct (String.eqb (trim value) EmptyString); [discriminate|].
  destruct (getXPForPriority priority) as [v|]; [|discriminate].
  injection Hadd as <-. split; [|reflexivity].
  change (removeTask now (tasks w ++ [Task.mk now (trim value) priority false v])
          = tasks w).
  unfold removeTask. rewrite List.filter_app. cbn.
  rewrite Z.eqb_refl. cbn. rewrite app_nil_r.
  now apply removeTask_absent.
Qed.

Lemma addTask_then_delete_witness :
  tasks (deleteTask 9 true
           (mkWorld (gameData openGame)
              (tasks openGame ++ [Task.mk 9 "Call home" "high" false 50])
              [SaveData; RenderTasks]))
  = tasks openGame.
Proof.
  apply (addTask_then_delete (fun s => s) "Call home" "high" 9 openGame);
    reflexivity.
Defined.

(** ** Progress never goes backwards *)

Lemma progressLe_refl g : progressLe g g.
Proof. unfold progressLe. repeat split; auto; lia. Qed.

Lemma progressLe_trans g1 g2 g3 :
  progressLe g1 g2 -> progressLe g2 g3 -> progressLe g1 g3.
Proof.
  intros (A1 & S1 & L1 & T1) (A2 & S2 & L2 & T2).
  unfold progressLe. repeat split; auto; lia.
Qed.

Lemma keepsProgress_skip : KeepsProgress skip.
Proof. intros w. apply progressLe_refl. Qed.

Lemma keepsProgress_seq p q :
  KeepsProgress p -> KeepsProgress q -> KeepsProgress (p >>> q).
Proof. intros Hp Hq w. eapply progressLe_trans; [apply Hp|apply Hq]. Qed.

Lemma keepsProgress_emit e : KeepsProgress (emit e).
Proof. intros w. apply progressLe_refl. Qed.

Lemma keepsProgress_updateTasks u : KeepsProgress (updateTasks u).
Proof. intros w. apply progressLe_refl. Qed.

Lemma keepsProgress_ifte c p q :
  KeepsProgress p -> KeepsProgress q -> KeepsProgress (ifte c p q).
Proof. intros Hp Hq w. unfold ifte. destruct (c (gameData w)); auto. Qed.

Lemma keepsProgress_when c p : KeepsProgress p -> KeepsProgress (when c p).
Proof. intros Hp. apply keepsProgress_ifte; [exact Hp|apply keepsProgress_skip]. Qed.

(** An assignment to a field that carries no progress. *)
Lemma keepsProgress_update_other u :
  (forall g, (achievements (u g), petStage (u g), level (u g), totalCompleted (u g))
             = (achievements g, petStage g, level g, totalCompleted g)) ->
  KeepsProgress (update u).
Proof.
  intros H w. specialize (H (gameData w)). injection H as Ha Hs Hl Ht.
  unfold progressLe, update, isUnlocked. cbn [gameData].
  rewrite Ha, Hs, Hl, Ht. repeat split; auto; lia.
Qed.

Lemma keepsProgress_level_up :
  KeepsProgress (update (fun g => set_level (level g + 1) g)).
Proof. intros w. unfold progressLe. cbn. repeat split; auto; lia. Qed.

Lemma keepsProgress_completed_up :
  KeepsProgress (update (fun g => set_totalCompleted (totalCompleted g + 1) g)).
Proof. intros w. unfold progressLe. cbn. repeat split; auto; lia. Qed.

Lemma keepsProgress_unlock id :
  KeepsProgress
    (update (fun g => set_achievements (<[id := true]> (achievements g)) g)).
Proof.
  intros w. unfold progressLe. cbn. repeat split; try lia.
  intros k Hk. unfold isUnlocked in *. cbn. rewrite lookup_insert.
  destruct (decide (id = k)); [reflexivity|exact Hk].
Qed.

#[local] Hint Resolve keepsProgress_skip keepsProgress_seq keepsProgress_emit
  keepsProgress_updateTasks keepsProgress_ifte keepsProgress_when
  keepsProgress_level_up keepsProgress_completed_up keepsProgress_unlock
  : progress.
#[local] Hint Extern 2 (KeepsProgress (update _)) =>
  apply keepsProgress_update_other; reflexivity : progress.
#[local] Hint Extern 1 (KeepsProgress (showCelebration _)) => apply keepsProgress_emit : progress.
#[local] Hint Extern 1 (KeepsProgress (playSound _)) => apply keepsProgress_emit : progress.
#[local] Hint Extern 1 (KeepsProgress (setTimeout _ _)) => apply keepsProgress_emit : progress.
#[local] Hint Extern 1 (KeepsProgress (showFloatingXP _)) => apply keepsProgress_emit : progress.
#[local] Hint Extern 1 (KeepsProgress updatePetDisplay) => apply keepsProgress_emit : progress.
#[local] Hint Extern 1 (KeepsProgress updatePlayerStats) => apply keepsProgress_emit : progress.
#[local] Hint Extern 1 (KeepsProgress renderTasks) => apply keepsProgress_emit : progress.
#[local] Hint Extern 1 (KeepsProgress renderAchievements) => apply keepsProgress_emit : progress.
#[local] Hint Extern 1 (KeepsProgress saveData) => apply keepsProgress_emit : progress.
#[local] Hint Extern 1 (KeepsProgress createHearts) => apply keepsProgress_emit : progress.
#[local] Hint Extern 1 (KeepsProgress createConfetti) => apply keepsProgress_emit : progress.

Lemma keepsProgress_enterHibernation now : KeepsProgress (enterHibernation now).
Proof. unfold enterHibernation. progresses. Qed.

Lemma keepsProgress_wakeFromHibernation : KeepsProgress wakeFromHibernation.
Proof. unfold wakeFromHibernation. progresses. Qed.

#[local] Hint Resolve keepsProgress_enterHibernation
  keepsProgress_wakeFromHibernation : progress.

Lemma keepsProgress_checkHibernation now : KeepsProgress (checkHibernation now).
Proof. unfold checkHibernation. progresses. Qed.

#[local] Hint Resolve keepsProgress_checkHibernation : progress.

Lemma keepsProgress_petPet now : KeepsProgress (petPet now).
Proof.
  intros w. unfold petPet. cbv zeta.
  destruct (_ <? 10000); [apply progressLe_refl|]. progresses_here.
Qed.

Lemma keepsProgress_feedPet : KeepsProgress feedPet.
Proof. unfold feedPet. progresses. Qed.

Lemma keepsProgress_boostPetEnergy : KeepsProgress boostPetEnergy.
Proof. unfold boostPetEnergy. progresses. Qed.

Lemma keepsProgress_updatePetNeeds now : KeepsProgress (updatePetNeeds now).
Proof.
  intros w. unfold updatePetNeeds. cbv zeta.
  destruct (Qleb 1 _); [|apply progressLe_refl].
  unfold decayStats. progresses_here.
Qed.

Lemma keepsProgress_checkPetEvolution : KeepsProgress checkPetEvolution.
Proof.
  intros w. unfold checkPetEvolution. cbv zeta.
  destruct (Z.ltb_spec (petStage (gameData w))
              (Evolution.stage (getPetEvolution (gameData w))));
    [|apply progressLe_refl].
  unfold progressLe. cbn. repeat split; auto; lia.
Qed.

Lemma keepsProgress_unlockAchievement a : KeepsProgress (unlockAchievement a).
Proof. unfold unlockAchievement. progresses. Qed.

Lemma keepsProgress_checkAchievement a : KeepsProgress (checkAchievement a).
Proof.
  intros w. unfold checkAchievement.
  destruct (isUnlocked _ _); [apply progressLe_refl|].
  destruct (requirementMet _ _); [|apply progressLe_refl].
  apply keepsProgress_unlockAchievement.
Qed.

Lemma keepsProgress_checkAchievementList l : KeepsProgress (checkAchievementList l).
Proof.
  induction l as [|a l IH]; intros w; [apply progressLe_refl|].
  eapply progressLe_trans; [apply (keepsProgress_checkAchievement a)|apply IH].
Qed.

Lemma keepsProgress_checkAchievements : KeepsProgress checkAchievements.
Proof. apply keepsProgress_checkAchievementList. Qed.

#[local] Hint Resolve keepsProgress_checkPetEvolution
  keepsProgress_checkAchievements keepsProgress_feedPet
  keepsProgress_boostPetEnergy : progress.

Lemma keepsProgress_levelUp : KeepsProgress levelUp.
Proof.
  unfold levelUp.
  assert (KeepsProgress (fun w =>
     let is5LevelMilestone := Z.rem (level (gameData w)) 5 =? 0 in
     if is5LevelMilestone then
       (showCelebration (NMegaLevelUp (level (gameData w))) >>>
        createConfetti >>>
        setTimeout CbConfetti 200 >>>
        setTimeout CbConfetti 400 >>>
        checkPetEvolution) w
     else
       (showCelebration (NLevelUp (level (gameData w))) >>>
        createConfetti) w)).
  { intros w. cbv zeta. destruct (_ =? 0); progresses_here. }
  progresses.
Qed.

#[local] Hint Resolve keepsProgress_levelUp : progress.

Lemma keepsProgress_addXP amount : KeepsProgress (addXP amount).
Proof.
  unfold addXP.
  assert (KeepsProgress (fun w =>
     let xpNeeded := getXPForLevel (level (gameData w)) in
     if xpNeeded <=? xp (gameData w) then levelUp w else w)).
  { intros w. cbv zeta.
    destruct (_ <=? _); [apply keepsProgress_levelUp|apply progressLe_refl]. }
  progresses.
Qed.

Lemma keepsProgress_updateStreak zone now : KeepsProgress (updateStreak zone now).
Proof.
  intros w. unfold updateStreak. cbv zeta.
  destruct (lastCompletedDate (gameData w)) as [lastDay|]; [|progresses_here].
  destruct (lastDay =? _); [progresses_here|].
  destruct (negb _); progresses_here.
Qed.

#[local] Hint Resolve keepsProgress_addXP keepsProgress_updateStreak : progress.

Lemma keepsProgress_toggleTask id zone now :
  KeepsProgress (fun w => worldOf (toggleTask id zone now w)).
Proof.
  intros w. unfold toggleTask. cbv zeta.
  destruct (petHibernating (gameData w)); [apply progressLe_refl|].
  destruct (findTask id (tasks w)) as [k|]; [|apply progressLe_refl].
  destruct (negb (Task.completed k)); [|apply progressLe_refl].
  cbn [worldOf]. progresses_here.
Qed.

Lemma keepsProgress_deleteTask id confirmed :
  KeepsProgress (deleteTask id confirmed).
Proof. unfold deleteTask. destruct confirmed; progresses. Qed.

(** X25: no mutating operation undoes progress.  Whatever the operation and
    the state, every achievement unlocked before is unlocked after, and the
    pet stage, the level and the completed-task counter are not lower
    after than before. *)
Theorem mutations_keep_progress (m : Mutation) (w : World) :
  progressLe (gameData w) (gameData (runMutation m w)).
Proof.
  revert w. change (KeepsProgress (runMutation m)).
  destruct m; cbn [runMutation].
  - apply keepsProgress_updatePetNeeds.
  - apply keepsProgress_petPet.
  - apply keepsProgress_feedPet.
  - apply keepsProgress_boostPetEnergy.
  - apply keepsProgress_levelUp.
  - apply keepsProgress_addXP.
  - apply keepsProgress_unlockAchievement.
  - apply keepsProgress_checkAchievements.
  - apply keepsProgress_updateStreak.
  - apply keepsProgress_checkPetEvolution.
  - apply keepsProgress_enterHibernation.
  - apply keepsProgress_wakeFromHibernation.
  - apply keepsProgress_checkHibernation.
  - apply keepsProgress_toggleTask.
  - apply keepsProgress_deleteTask.
Qed.

Lemma mutations_keep_progress_witness :
  isUnlocked "first_task"
    (gameData (runMutation (Petting (noonD + 20000))
                 (worldOf (toggleTask 7 utc noonD openGame)))) = true.
Proof.
  apply (proj1 (mutations_keep_progress (Petting (noonD + 20000))
                  (worldOf (toggleTask 7 utc noonD openGame)))).
  vm_compute. reflexivity.
Defined.

(** ** Page load *)

Lemma updatePetNeeds_frame {A} (f : GameData -> A) now w :
  (forall v g, f (set_petHunger v g) = f g) ->
  (forall v g, f (set_petEnergy v g) = f g) ->
  (forall v g, f (set_petHappiness v g) = f g) ->
  (forall v g, f (set_petLastUpdate v g) = f g) ->
  (forall v g, f (set_petHibernating v g) = f g) ->
  (forall v g, f (set_hibernationStartTime v g) = f g) ->
  f (gameData (updatePetNeeds now w)) = f (gameData w).
Proof.
  intros Hu He Hh Hl H1 H2. unfold updatePetNeeds. cbv zeta.
  destruct (Qleb 1 _); [|reflexivity].
  unfold seq, saveData, updatePetDisplay. rewrite !gameData_emit.
  rewrite checkHibernation_frame by assumption.
  gd_simpl. rewrite Hl.
  unfold decayStats, when, ifte, seq. gd_simpl.
  destruct (petHibernating (gameData w)); gd_simpl.
  - now rewrite Hh, He, Hu.
  - destruct (Qltb 70 _); gd_simpl; now rewrite ?Hh, He, Hu.
Qed.

(** X26: the start-up sequence ends with the evolution check, so after a
    page load the pet stage is the larger of the stored stage and the stage
    of the stored level: a stage left behind by [levelUp] is caught up, and
    the stats stay in [0,100] if they were. *)
Theorem initialize_catches_up now w :
  petStage (gameData (initialize now w))
  = Z.max (petStage (gameData w)) (Evolution.stage (getPetEvolution (gameData w))) /\
  level (gameData (initialize now w)) = level (gameData w) /\
  (statsInRange (gameData w) -> statsInRange (gameData (initialize now w))).
Proof.
  unfold initialize, seq. unfold_sinks.
  split; [|split].
  - rewrite checkPetEvolution_petStage. unfold getPetEvolution.
    rewrite (updatePetNeeds_frame petStage), (updatePetNeeds_frame level)
      by reflexivity.
    reflexivity.
  - rewrite (checkPetEvolution_frame level), (updatePetNeeds_frame level)
      by reflexivity.
    reflexivity.
  - intros H. apply keeps_checkPetEvolution, keeps_updatePetNeeds. exact H.
Qed.

Lemma initialize_catches_up_witness :
  statsInRange (gameData (initialize 864001000 staleGame)).
Proof.
  apply (initialize_catches_up 864001000 staleGame).
  unfold statsInRange, inRange. cbn. repeat split; lra.
Defined.

(** The lag that [levelUp] leaves at level 2 is gone after a reload. *)
Example reload_after_level_2 :
  petStage (gameData (initialize 5000 (levelUp (freshGame 120)))) = 1.
Proof. vm_compute. reflexivity. Qed.

(** ** The page *)

(** X27: what the page shows of the evolution.  With the pet awake the
    banner reads "Stage n" with n the stage of the current level plus one,
    between 1 and 7; with the pet hibernating it reads HIBERNATING.  The
    stored [petStage] is never shown: changing it changes nothing on the
    page. *)
Theorem petView_banner g :
  (petHibernating g = false ->
   PetView.banner (petView g)
   = BannerStage (Evolution.stage (getPetEvolution g) + 1) /\
   1 <= Evolution.stage (getPetEvolution g) + 1 <= 7) /\
  (petHibernating g = true -> PetView.banner (petView g) = BannerHibernating) /\
  (forall v, petView (set_petStage v g) = petView g).
Proof.
  split; [|split].
  - intros H. unfold petView. cbv zeta. rewrite H. split; [reflexivity|].
    unfold getPetEvolution. rewrite evolutionForLevel_stage.
    repeat match goal with
    | |- context [?a <=? ?l] => destruct (a <=? l)
    end; lia.
  - intros H. unfold petView. cbv zeta. now rewrite H.
  - intros v. reflexivity.
Qed.

Lemma petView_banner_witness :
  PetView.banner (petView (gameData (levelUp (freshGame 120)))) = BannerStage 2.
Proof.
  apply (proj1 (petView_banner (gameData (levelUp (freshGame 120))))).
  vm_compute. reflexivity.
Defined.

(** X28: what the mood line of an awake pet tells.  A text from the sad pool
    shows only with happiness below 30; one from the energetic pool only
    with energy above 80 and happiness at most 60; one from the happy pool
    only with happiness and energy adding up to more than 140; and none of
    the three shows while hunger is above 80 or energy below 30. *)
Theorem awakeMood_reading evolution g :
  let mood := fst (awakeMood evolution g) in
  (mood = RandomFrom PetMoods.sad -> (petHappiness g < 30)%Q) /\
  (mood = RandomFrom PetMoods.energetic ->
   (80 < petEnergy g)%Q /\ (petHappiness g <= 60)%Q) /\
  (mood = RandomFrom PetMoods.happy ->
   (140 < petHappiness g + petEnergy g)%Q) /\
  (mood = RandomFrom PetMoods.sad \/ mood = RandomFrom PetMoods.energetic \/
   mood = RandomFrom PetMoods.happy ->
   (petHunger g <= 80)%Q /\ (30 <= petEnergy g)%Q).
Proof.
  cbv zeta. unfold awakeMood. cbv zeta.
  unfold PetMoods.sad, PetMoods.energetic, PetMoods.happy, PetMoods.hungry.
  destruct (Qltb 80 (petHunger g)) eqn:E1; [cbn [fst]; mood_cases|].
  destruct (Qltb (petEnergy g) 30) eqn:E2; [cbn [fst]; mood_cases|].
  assert (petHunger g <= 80)%Q as H1.
  { apply Qnot_lt_le. intros H. apply Qltb_lt in H. congruence. }
  assert (30 <= petEnergy g)%Q as H2.
  { apply Qnot_lt_le. intros H. apply Qltb_lt in H. congruence. }
  assert (petHappiness g + petEnergy g
          == 2 * ((petHappiness g + petEnergy g) / 2))%Q as Havg by field.
  set (avgMood := ((petHappiness g + petEnergy g) / 2)%Q) in *.
  destruct (Qltb 70 avgMood) eqn:E3.
  { apply Qltb_lt in E3. cbn [fst]. mood_cases. }
  assert (avgMood <= 70)%Q as H3.
  { apply Qnot_lt_le. intros H. apply Qltb_lt in H. congruence. }
  destruct (Qltb avgMood 30) eqn:E4.
  { apply Qltb_lt in E4. cbn [fst]. mood_cases. }
  destruct (Qltb 80 (petEnergy g)) eqn:E5.
  { apply Qltb_lt in E5. cbn [fst]. mood_cases. }
  cbn [fst]. mood_cases.
Qed.

Lemma awakeMood_reading_witness :
  (petHappiness (set_petEnergy 40 (set_petHappiness 10 (defaultGameData 0))) < 30)%Q.
Proof.
  apply (proj1 (awakeMood_reading firstEvolution
                  (set_petEnergy 40 (set_petHappiness 10 (defaultGameData 0))))).
  vm_compute. reflexivity.
Defined.
